(** * Image generator front-end (src/index.tsx): model and verification

    The program is a browser page script.  Its state is the module-level
    [referenceImages] dictionary plus the handful of DOM elements it reads
    and writes; its only outbound effect is one call to the remote
    generation service per submit.  The model threads that state
    explicitly through a small state-and-exception monad, so that a
    JavaScript [throw] (including the [TypeError] of a property access on
    [null]) keeps the writes made before it, exactly as in the source. *)

From Stdlib Require Import String Ascii DecimalString.
From stdpp Require Import gmap strings list fin_maps.

(** ** JavaScript strings and values *)

Module Js.

(** Characters that cannot be typed inside a string literal. *)
Definition dq : string := String "034"%char EmptyString.
Definition nl : string := String "010"%char EmptyString.

(** Template-literal rendering of a non-negative integer: [`${n}`]. *)
Definition Number_toString (n : nat) : string :=
  NilEmpty.string_of_uint (Nat.to_uint n).

(** Truthiness of a [string | undefined]: only a non-empty string. *)
Definition truthy (s : option string) : bool :=
  match s with
  | Some (String _ _) => true
  | _ => false
  end.

(** [a || b] on strings: [a] when truthy, otherwise [b]. *)
Definition or_else (a : option string) (b : string) : string :=
  match a with
  | Some (String c r) => String c r
  | _ => b
  end.

(** [Array.prototype.join]. *)
Fixpoint join (sep : string) (l : list string) : string :=
  match l with
  | [] => ""
  | [x] => x
  | x :: rest => x +:+ sep +:+ join sep rest
  end.

(** [s.split(c)] for a one-character separator: the pieces between the
    occurrences of [c]; always at least one piece. *)
Fixpoint split_go (c : ascii) (cur : string) (s : string) : list string :=
  match s with
  | EmptyString => [cur]
  | String a r =>
      if Ascii.eqb a c then cur :: split_go c "" r
      else split_go c (cur +:+ String a EmptyString) r
  end.
Definition split (c : ascii) (s : string) : list string := split_go c "" s.

(** [hay.includes(needle)]. *)
Fixpoint includes (hay needle : string) : bool :=
  String.prefix needle hay ||
  match hay with
  | EmptyString => false
  | String _ r => includes r needle
  end.

(** [hay.endsWith(suffix)]. *)
Fixpoint endsWith (hay suffix : string) : bool :=
  String.eqb hay suffix ||
  match hay with
  | EmptyString => false
  | String _ r => endsWith r suffix
  end.

(** A thrown value: an instance of [Error] (with its [message]) or any
    other value. *)
Inductive Thrown :=
| ErrorObject (name message : string)
| NonError (description : string).

(** Property access on [null]; the wording of the message is the
    engine's, nothing in the program depends on it. *)
Definition TypeError_null (prop : string) : Thrown :=
  ErrorObject "TypeError"
    ("Cannot read properties of null (reading '" +:+ prop +:+ "')").
Definition TypeError_undefined (prop : string) : Thrown :=
  ErrorObject "TypeError"
    ("Cannot read properties of undefined (reading '" +:+ prop +:+ "')").

End Js.

(** ** Data model *)

(** [interface ReferenceImage].  Objects of this type are created only by
    the object literal in [handleFileChange] and never mutated, so an
    object is modelled by its contents together with its identity [oid];
    [===] compares identities.  The interface declares [base64] a string,
    but the destructuring of line 97 leaves it undefined when the reader
    result has no comma, hence the option. *)
Record ReferenceImage := {
  oid : nat;
  base64 : option string;
  mimeType : string
}.

Definition same_object (a b : ReferenceImage) : bool := Nat.eqb (oid a) (oid b).

(** The remote service boundary (@google/genai). *)
Record Blob := { data : option string; blob_mimeType : option string }.

Inductive RequestPart :=
| InlineDataPart (d : option string) (mime : string)
| TextPart (t : string).

Inductive Modality := IMAGE | TEXT.

Record ContentRequest := {
  cr_model : string;
  cr_parts : list RequestPart;
  cr_responseModalities : list Modality
}.

Record ImagesRequest := {
  ir_model : string;
  ir_prompt : string;
  ir_numberOfImages : nat;
  ir_aspectRatio : string;
  ir_outputMimeType : string
}.

Inductive Request :=
| GenerateContent (r : ContentRequest)
| GenerateImages (r : ImagesRequest).

(** One [Part] of a response: every field is optional in the SDK. *)
Record Part := { inlineData : option Blob; text : option string }.
Record Content := { parts : option (list Part) }.
Record Candidate := { content : option Content }.
Record GenerateContentResponse := { candidates : option (list Candidate) }.

(** [Partial<GeneratedImage>]. *)
Record Image := { imageBytes : option string; image_mimeType : option string }.
Record GeneratedImage := { image : option Image }.
Record GenerateImagesResponse := { generatedImages : option (list GeneratedImage) }.

(** What an awaited service call does: resolve with a value or reject. *)
Record Service := {
  generateContent : ContentRequest -> Js.Thrown + GenerateContentResponse;
  generateImages : ImagesRequest -> Js.Thrown + GenerateImagesResponse
}.

(** Children of the gallery container. *)
Record GalleryItem := {
  item_className : string;
  img_src : string;
  img_alt : string;
  btn_href : string;
  btn_download : string;
  btn_className : string;
  btn_innerHTML : string;
  btn_aria_label : string;
  btn_role : string
}.

Inductive GalleryNode :=
| Markup (html : string)      (* what an [innerHTML] assignment put there *)
| Item (g : GalleryItem).     (* a [div.gallery-item] appended as a child *)

(** The page state the script touches.  An element looked up with
    [getElementById] may be missing, hence the options. *)
Record World := {
  referenceImages : gmap string (option ReferenceImage);
  checkboxes : gmap string bool;
  promptInput : option string;
  aspectRatioSelect : option string;
  generateBtn : option bool;
  imageGallery : option (list GalleryNode);
  requests : list Request;
  console : list Js.Thrown
}.

Definition set_generateBtn (v : option bool) (w : World) : World :=
  {| referenceImages := referenceImages w; checkboxes := checkboxes w;
     promptInput := promptInput w; aspectRatioSelect := aspectRatioSelect w;
     generateBtn := v; imageGallery := imageGallery w;
     requests := requests w; console := console w |}.

Definition set_imageGallery (v : option (list GalleryNode)) (w : World) : World :=
  {| referenceImages := referenceImages w; checkboxes := checkboxes w;
     promptInput := promptInput w; aspectRatioSelect := aspectRatioSelect w;
     generateBtn := generateBtn w; imageGallery := v;
     requests := requests w; console := console w |}.

Definition set_requests (v : list Request) (w : World) : World :=
  {| referenceImages := referenceImages w; checkboxes := checkboxes w;
     promptInput := promptInput w; aspectRatioSelect := aspectRatioSelect w;
     generateBtn := generateBtn w; imageGallery := imageGallery w;
     requests := v; console := console w |}.

Definition set_console (v : list Js.Thrown) (w : World) : World :=
  {| referenceImages := referenceImages w; checkboxes := checkboxes w;
     promptInput := promptInput w; aspectRatioSelect := aspectRatioSelect w;
     generateBtn := generateBtn w; imageGallery := imageGallery w;
     requests := requests w; console := v |}.

(** [referenceImages[id]] as a truthiness test and a value: [null] and a
    missing key are both falsy. *)
Definition slot (w : World) (id : string) : option ReferenceImage :=
  mjoin (referenceImages w !! id).

(** ** The state-and-exception monad *)

Inductive Completion (A : Type) :=
| Normal (a : A)
| Throw (e : Js.Thrown).
Arguments Normal {A} a.
Arguments Throw {A} e.

Definition JS (A : Type) : Type := World -> Completion A * World.

Definition ret {A} (a : A) : JS A := fun w => (Normal a, w).
Definition throw {A} (e : Js.Thrown) : JS A := fun w => (Throw e, w).
Definition bind {A B} (m : JS A) (k : A -> JS B) : JS B :=
  fun w =>
    match m w with
    | (Normal a, w') => k a w'
    | (Throw e, w') => (Throw e, w')
    end.
Definition gets {A} (f : World -> A) : JS A := fun w => (Normal (f w), w).
Definition modify (f : World -> World) : JS unit := fun w => (Normal tt, f w).

(** [try { body } catch (error) { handler } finally { final }]. *)
Definition try_catch_finally (body : JS unit) (handler : Js.Thrown -> JS unit)
    (final : JS unit) : JS unit :=
  fun w =>
    match body w with
    | (Normal _, w1) => final w1
    | (Throw e, w1) =>
        match handler e w1 with
        | (Normal _, w2) => final w2
        | (Throw e', w2) => bind final (fun _ => throw e') w2
        end
    end.

Declare Scope js_scope.
Delimit Scope js_scope with js.
Notation "'let*' x ':=' m 'in' k" := (bind m (fun x => k))
  (at level 10, x name, m at level 100, k at level 200) : js_scope.
Local Open Scope js_scope.

(** Reading a property of an element that may be [null]. *)
Definition prop {A} (name : string) (el : option A) : JS A :=
  match el with
  | Some v => ret v
  | None => throw (Js.TypeError_null name)
  end.

(** ** getSelectedImages (lines 137-155) *)

(** [`char${i}`] *)
Definition char_id (i : nat) : string := "char" +:+ Js.Number_toString i.

Fixpoint getSelectedImages_for (indices : list nat) (selected : list ReferenceImage)
  : JS (list ReferenceImage) :=
  match indices with
  | [] => ret selected
  | i :: rest =>
      let id := char_id i in
      let* checkbox := gets (fun w => checkboxes w !! ("checkbox-" +:+ id)) in
      let* checked := prop "checked" checkbox in
      let* img := gets (fun w => slot w id) in
      match checked, img with
      | true, Some r => getSelectedImages_for rest (selected ++ [r])
      | _, _ => getSelectedImages_for rest selected
      end
  end.

Definition getSelectedImages : JS (list ReferenceImage) :=
  let* bg := gets (fun w => slot w "bg") in
  let selected := match bg with Some b => [b] | None => [] end in
  getSelectedImages_for (seq 1 4) selected.

(** ** setMessage (lines 157-162) *)

Definition message_html (message : string) (isError : bool) : string :=
  "<div class=" +:+ Js.dq +:+ "message " +:+ (if isError then "error" else "")
    +:+ Js.dq +:+ ">" +:+ message +:+ "</div>".

Definition setMessage (message : string) (isError : bool) : JS unit :=
  let* imageGallery := gets imageGallery in
  match imageGallery with
  | Some _ => modify (set_imageGallery (Some [Markup (message_html message isError)]))
  | None => ret tt
  end.

(** ** displayImages (lines 259-308) *)

Definition no_images_message : string :=
  "No images were generated or the response was empty.".

(** [generatedImage.image?.imageBytes] *)
Definition image_bytes (generatedImage : GeneratedImage) : option string :=
  match image generatedImage with
  | Some im => imageBytes im
  | None => None
  end.

(** [generatedImage.image.mimeType || 'image/jpeg'] *)
Definition mimeType_of (generatedImage : GeneratedImage) : string :=
  Js.or_else (match image generatedImage with
              | Some im => image_mimeType im
              | None => None
              end) "image/jpeg".

(** [mimeType.split('/')[1] || 'jpeg'] *)
Definition fileExtension_of (mimeType : string) : string :=
  Js.or_else (Js.split "/"%char mimeType !! 1%nat) "jpeg".

Definition download_svg : string :=
  Js.nl +:+ "                <svg xmlns=" +:+ Js.dq +:+ "http://www.w3.org/2000/svg"
  +:+ Js.dq +:+ " width=" +:+ Js.dq +:+ "16" +:+ Js.dq +:+ " height=" +:+ Js.dq
  +:+ "16" +:+ Js.dq +:+ " fill=" +:+ Js.dq +:+ "currentColor" +:+ Js.dq
  +:+ " viewBox=" +:+ Js.dq +:+ "0 0 16 16" +:+ Js.dq +:+ " aria-hidden="
  +:+ Js.dq +:+ "true" +:+ Js.dq +:+ ">" +:+ Js.nl
  +:+ "                    <path d=" +:+ Js.dq
  +:+ "M.5 9.9a.5.5 0 0 1 .5.5v2.5a1 1 0 0 0 1 1h12a1 1 0 0 0 1-1v-2.5a.5.5 0 0 1 1 0v2.5a2 2 0 0 1-2 2H2a2 2 0 0 1-2-2v-2.5a.5.5 0 0 1 .5-.5z"
  +:+ Js.dq +:+ "/>" +:+ Js.nl
  +:+ "                    <path d=" +:+ Js.dq
  +:+ "M7.646 11.854a.5.5 0 0 0 .708 0l3-3a.5.5 0 0 0-.708-.708L8.5 10.293V1.5a.5.5 0 0 0-1 0v8.793L5.354 8.146a.5.5 0 1 0-.708.708l3 3z"
  +:+ Js.dq +:+ "/>" +:+ Js.nl
  +:+ "                </svg>" +:+ Js.nl
  +:+ "                <span>Tải về</span>" +:+ Js.nl
  +:+ "            ".

(** The [div.gallery-item] built for the entry at position [index]. *)
Definition gallery_item (index : nat) (generatedImage : GeneratedImage)
    (bytes : string) : GalleryItem :=
  let mimeType := mimeType_of generatedImage in
  let fileExtension := fileExtension_of mimeType in
  let src := "data:" +:+ mimeType +:+ ";base64," +:+ bytes in
  {| item_className := "gallery-item";
     img_src := src;
     img_alt := "Generated Image " +:+ Js.Number_toString (index + 1);
     btn_href := src;
     btn_download := "generated-image-" +:+ Js.Number_toString (index + 1)
                       +:+ "." +:+ fileExtension;
     btn_className := "download-btn";
     btn_innerHTML := download_svg;
     btn_aria_label := "Download image " +:+ Js.Number_toString (index + 1);
     btn_role := "button" |}.

(** [imageGallery.appendChild(galleryItem)] on the element found at entry. *)
Definition appendChild (n : GalleryNode) : JS unit :=
  modify (fun w => set_imageGallery (option_map (fun c => (c ++ [n])%list) (imageGallery w)) w).

(** [generatedImages.forEach((generatedImage, index) => ...)] *)
Fixpoint displayImages_forEach (index : nat) (l : list GeneratedImage) : JS unit :=
  match l with
  | [] => ret tt
  | generatedImage :: rest =>
      let* _ :=
        match image_bytes generatedImage with
        | Some (String c r) =>
            appendChild (Item (gallery_item index generatedImage (String c r)))
        | _ => ret tt
        end in
      displayImages_forEach (S index) rest
  end.

Definition displayImages (generatedImages : option (list GeneratedImage)) : JS unit :=
  let* imageGallery := gets imageGallery in
  match imageGallery with
  | None => ret tt
  | Some _ =>
      let* _ := modify (set_imageGallery (Some [])) in
      match generatedImages with
      | None | Some [] => setMessage no_images_message false
      | Some l => displayImages_forEach 0 l
      end
  end.

(** ** Prompt composition (lines 183-205) *)

Definition bg_instruction : string :=
  "Use the first provided image as the main background. Critically, you must remove any people from this image, using only the scenery as the background for the final composition.".

Definition integrate_instruction (numCharacters : nat) (charText : string) : string :=
  "Integrate the " +:+ Js.Number_toString numCharacters +:+ " " +:+ charText
    +:+ " from the other reference images into the background scene.".

Definition combine_instruction (numCharacters : nat) (charText : string) : string :=
  "Combine the " +:+ Js.Number_toString numCharacters +:+ " " +:+ charText
    +:+ " from the reference images into a single cohesive scene based on the text prompt.".

Definition once_instruction : string :=
  "Crucially, ensure each distinct character appears only once in the final image and that no characters are omitted or duplicated.".

(** [selectedImages.length > 0 && referenceImages.bg === selectedImages[0]];
    [null] is identical to no object. *)
Definition hasBg_of (bg : option ReferenceImage) (selectedImages : list ReferenceImage)
  : bool :=
  (0 <? length selectedImages)%nat &&
  match bg, head selectedImages with
  | Some b, Some s => same_object b s
  | _, _ => false
  end.

Definition numCharacters_of (hasBg : bool) (selectedImages : list ReferenceImage) : nat :=
  if hasBg then length selectedImages - 1 else length selectedImages.

Definition instructions_of (hasBg : bool) (numCharacters : nat) : list string :=
  let instructions := if hasBg then [bg_instruction] else [] in
  if (0 <? numCharacters)%nat then
    let charText := if (numCharacters =? 1)%nat then "character" else "characters" in
    let instructions :=
      (instructions ++
        [if hasBg then integrate_instruction numCharacters charText
         else combine_instruction numCharacters charText])%list in
    (instructions ++ [once_instruction])%list
  else instructions.

Definition aspect_sentence (aspectRatio : string) : string :=
  Js.nl +:+ Js.nl +:+ "Finally, the image must have a " +:+ aspectRatio
    +:+ " aspect ratio.".

Definition finalPrompt_of (instructions : list string) (prompt aspectRatio : string)
  : string :=
  let finalPrompt :=
    if (0 <? length instructions)%nat then
      Js.join " " instructions +:+ Js.nl +:+ Js.nl
        +:+ "Here is the creative brief: " +:+ Js.dq +:+ prompt +:+ Js.dq
    else prompt in
  finalPrompt +:+ aspect_sentence aspectRatio.

Definition composePrompt (bg : option ReferenceImage)
    (selectedImages : list ReferenceImage) (prompt aspectRatio : string) : string :=
  let hasBg := hasBg_of bg selectedImages in
  let numCharacters := numCharacters_of hasBg selectedImages in
  finalPrompt_of (instructions_of hasBg numCharacters) prompt aspectRatio.

(** ** generateAndDisplayImages (lines 164-257) *)

Definition no_image_fallback : string := "No image was generated by the model.".
Definition generic_error_message : string :=
  "Could not load images. Please check the console for details.".

(** [response.candidates?.[0]?.content?.parts]: the chain stops at the
    first link that is undefined; the method call after [.parts] is not
    guarded, so a content without parts throws. *)
Definition response_parts (response : GenerateContentResponse) : JS (option (list Part)) :=
  match candidates response with
  | None => ret None
  | Some cs =>
      match head cs with
      | None => ret None
      | Some c =>
          match content c with
          | None => ret None
          | Some ct =>
              match parts ct with
              | None => throw (Js.TypeError_undefined "filter")
              | Some ps => ret (Some ps)
              end
          end
      end
  end.

Definition has_inlineData (p : Part) : bool :=
  match inlineData p with Some _ => true | None => false end.

(** [part => ({ image: { imageBytes: part.inlineData!.data,
                         mimeType: part.inlineData!.mimeType } })] *)
Definition image_of_part (p : Part) : GeneratedImage :=
  {| image := Some {| imageBytes := inlineData p ≫= data;
                      image_mimeType := inlineData p ≫= blob_mimeType |} |}.

(** [parts.filter(p => p.text).map(p => p.text)]: the truthy texts. *)
Definition text_parts (ps : list Part) : list string :=
  omap (fun p => match text p with
                 | Some (String c r) => Some (String c r)
                 | _ => None
                 end) ps.

(** [parts.filter(p => p.text).map(p => p.text).join(' ')] *)
Definition joined_text (ps : list Part) : string := Js.join " " (text_parts ps).

(** [error instanceof Error ? error.message : "Could not load ..."] *)
Definition errorMessage_of (error : Js.Thrown) : string :=
  match error with
  | Js.ErrorObject _ message => message
  | Js.NonError _ => generic_error_message
  end.

(** [generateBtn.disabled = v]; the button was looked up without a guard. *)
Definition set_disabled (v : bool) : JS unit :=
  fun w =>
    match generateBtn w with
    | Some _ => (Normal tt, set_generateBtn (Some v) w)
    | None =>
        (Throw (Js.ErrorObject "TypeError"
                  "Cannot set properties of null (setting 'disabled')"), w)
    end.

Section Client.

Variable ai : Service.

(** [await ai.models.generateContent(req)]: the request leaves the page,
    then the promise settles.  The submit button is disabled while the call
    is outstanding and nothing after the await reads the reference images or
    the checkboxes, so the continuation is run on the state the call left. *)
Definition await_generateContent (req : ContentRequest) : JS GenerateContentResponse :=
  fun w =>
    let w' := set_requests (requests w ++ [GenerateContent req]) w in
    match generateContent ai req with
    | inl e => (Throw e, w')
    | inr r => (Normal r, w')
    end.

Definition await_generateImages (req : ImagesRequest) : JS GenerateImagesResponse :=
  fun w =>
    let w' := set_requests (requests w ++ [GenerateImages req]) w in
    match generateImages ai req with
    | inl e => (Throw e, w')
    | inr r => (Normal r, w')
    end.

(** Lines 177-233: the branch taken when reference images are selected. *)
Definition compose_and_display (prompt aspectRatio : string)
    (selectedImages : list ReferenceImage) : JS unit :=
  let imageParts :=
    map (fun img => InlineDataPart (base64 img) (mimeType img)) selectedImages in
  let* bg := gets (fun w => slot w "bg") in
  let finalPrompt := composePrompt bg selectedImages prompt aspectRatio in
  let* response :=
    await_generateContent
      {| cr_model := "gemini-2.5-flash-image-preview";
         cr_parts := imageParts ++ [TextPart finalPrompt];
         cr_responseModalities := [IMAGE; TEXT] |} in
  let* ps := response_parts response in
  let imagePartsFromResponse := option_map (List.filter has_inlineData) ps in
  match imagePartsFromResponse with
  | Some (p :: rest) => displayImages (Some (map image_of_part (p :: rest)))
  | _ =>
      let* ps' := response_parts response in
      let modelTextResponse := Js.or_else (option_map joined_text ps') no_image_fallback in
      throw (Js.ErrorObject "Error" modelTextResponse)
  end.

(** Lines 235-248: the text-to-image branch. *)
Definition text_to_image (prompt aspectRatio : string) : JS unit :=
  let* response :=
    await_generateImages
      {| ir_model := "imagen-4.0-generate-001";
         ir_prompt := prompt;
         ir_numberOfImages := 3;
         ir_aspectRatio := aspectRatio;
         ir_outputMimeType := "image/jpeg" |} in
  displayImages (generatedImages response).

(** The body of the [try] block. *)
Definition generate_try : JS unit :=
  let* promptInput := gets promptInput in
  let* prompt := prop "value" promptInput in
  let* selectedImages := getSelectedImages in
  let* aspectRatioSelect := gets aspectRatioSelect in
  let* aspectRatio := prop "value" aspectRatioSelect in
  if (0 <? length selectedImages)%nat
  then compose_and_display prompt aspectRatio selectedImages
  else text_to_image prompt aspectRatio.

(** The [catch (error)] block. *)
Definition generate_catch (error : Js.Thrown) : JS unit :=
  let* _ := modify (fun w => set_console (console w ++ [error]) w) in
  let errorMessage := errorMessage_of error in
  setMessage ("Error: " +:+ errorMessage) true.

(** The [finally] block. *)
Definition generate_finally : JS unit := set_disabled false.

Definition generateAndDisplayImages : JS unit :=
  let* _ := set_disabled true in
  let* _ := setMessage "Generating images, please wait..." false in
  try_catch_finally generate_try generate_catch generate_finally.

End Client.

(** ** Specification-side vocabulary

    The definitions below are not part of the program: they name what the
    statements of the theorems talk about. *)

(** What one character slot adds to the selection. *)
Definition contribution (checked : bool) (img : option ReferenceImage)
  : list ReferenceImage :=
  if checked then option_list img else [].

Definition slot_contribution (w : World) (i : nat) : list ReferenceImage :=
  match checkboxes w !! ("checkbox-" +:+ char_id i) with
  | Some checked => contribution checked (slot w (char_id i))
  | None => []
  end.

(** The gallery items among the children of the gallery, in order. *)
Definition gallery_items (nodes : list GalleryNode) : list GalleryItem :=
  omap (fun n => match n with Item g => Some g | Markup _ => None end) nodes.

(** An entry carries image bytes when [image.imageBytes] is a non-empty
    string. *)
Definition carries_bytes (generatedImage : GeneratedImage) : bool :=
  Js.truthy (image_bytes generatedImage).

(** The item rendered for an entry, if it carries bytes. *)
Definition rendered (index : nat) (generatedImage : GeneratedImage) : option GalleryItem :=
  match image_bytes generatedImage with
  | Some (String c r) => Some (gallery_item index generatedImage (String c r))
  | _ => None
  end.

(** The download name of the entry at 0-based [position] of the result
    list. *)
Definition download_name (position : nat) (generatedImage : GeneratedImage) : string :=
  "generated-image-" +:+ Js.Number_toString (position + 1) +:+ "."
    +:+ fileExtension_of (mimeType_of generatedImage).

(** The download names a result list calls for: one per entry that carries
    bytes, numbered by position in the whole list. *)
Definition expected_downloads (generatedImages : list GeneratedImage) : list string :=
  omap id (imap (fun position generatedImage =>
                   if carries_bytes generatedImage
                   then Some (download_name position generatedImage)
                   else None) generatedImages).

Fixpoint has_char (c : ascii) (s : string) : bool :=
  match s with
  | EmptyString => false
  | String a r => Ascii.eqb a c || has_char c r
  end.

(** The request of the composition branch. *)
Definition composition_request (bg : option ReferenceImage)
    (selectedImages : list ReferenceImage) (prompt aspectRatio : string)
  : ContentRequest :=
  {| cr_model := "gemini-2.5-flash-image-preview";
     cr_parts :=
       map (fun img => InlineDataPart (base64 img) (mimeType img)) selectedImages
         ++ [TextPart (composePrompt bg selectedImages prompt aspectRatio)];
     cr_responseModalities := [IMAGE; TEXT] |}.

(** The request of the text-to-image branch. *)
Definition text_request (prompt aspectRatio : string) : ImagesRequest :=
  {| ir_model := "imagen-4.0-generate-001";
     ir_prompt := prompt;
     ir_numberOfImages := 3;
     ir_aspectRatio := aspectRatio;
     ir_outputMimeType := "image/jpeg" |}.

(** The page when the [try] block is entered: button disabled, progress
    message shown. *)
Definition try_entry (w : World) : World :=
  (setMessage "Generating images, please wait..." false
     (set_generateBtn (Some true) w)).2.


(** ** Worked inputs

    A page with a background and three character images loaded, slots 1, 2
    and 4 ticked and slot 2 emptied; the same page with nothing loaded; a
    service that answers a composition request with text only and rejects a
    text-to-image request. *)

Definition sample_image (n : nat) (payload : string) : ReferenceImage :=
  {| oid := n; base64 := Some payload; mimeType := "image/png" |}.

Definition sample_checkboxes : gmap string bool :=
  <["checkbox-char1" := true]>
    (<["checkbox-char2" := true]>
       (<["checkbox-char3" := false]> (<["checkbox-char4" := true]> ∅))).

Definition sample_world : World :=
  {| referenceImages :=
       <["bg" := Some (sample_image 0 "Qkc=")]>
         (<["char1" := Some (sample_image 1 "QzE=")]>
            (<["char2" := None]>
               (<["char3" := Some (sample_image 3 "QzM=")]>
                  (<["char4" := Some (sample_image 4 "QzQ=")]> ∅))));
     checkboxes := sample_checkboxes;
     promptInput := Some "P";
     aspectRatioSelect := Some "16:9";
     generateBtn := Some false;
     imageGallery := Some [Markup "previous"];
     requests := [];
     console := [] |}.

Definition empty_world : World :=
  {| referenceImages :=
       <["bg" := None]>
         (<["char1" := None]>
            (<["char2" := None]> (<["char3" := None]> (<["char4" := None]> ∅))));
     checkboxes := sample_checkboxes;
     promptInput := Some "P";
     aspectRatioSelect := Some "1:1";
     generateBtn := Some false;
     imageGallery := Some [Markup "previous"];
     requests := [];
     console := [] |}.

Definition refusal_parts : list Part :=
  [ {| inlineData := None; text := Some "I cannot" |};
    {| inlineData := None; text := Some "" |};
    {| inlineData := None; text := Some "draw that." |} ].

Definition refusal_response : GenerateContentResponse :=
  {| candidates := Some [ {| content := Some {| parts := Some refusal_parts |} |} ] |}.

Definition sample_ai : Service :=
  {| generateContent := fun _ => inr refusal_response;
     generateImages := fun _ => inl (Js.ErrorObject "ApiError" "quota exceeded") |}.

Definition sample_results : list GeneratedImage :=
  [ {| image := Some {| imageBytes := Some "QUJD"; image_mimeType := Some "image/png" |} |};
    {| image := None |};
    {| image := Some {| imageBytes := Some "REVG"; image_mimeType := Some "binary" |} |} ].

Definition byteless_results : list GeneratedImage :=
  [ {| image := None |};
    {| image := Some {| imageBytes := Some ""; image_mimeType := Some "image/png" |} |};
    {| image := Some {| imageBytes := None; image_mimeType := None |} |} ].

(** The page of the end-to-end scenario: only character slot 1 loaded and
    ticked, prompt P, aspect ratio 16:9. *)
Definition one_character_world : World :=
  {| referenceImages :=
       <["bg" := None]>
         (<["char1" := Some (sample_image 1 "QzE=")]>
            (<["char2" := None]> (<["char3" := None]> (<["char4" := None]> ∅))));
     checkboxes :=
       <["checkbox-char1" := true]>
         (<["checkbox-char2" := false]>
            (<["checkbox-char3" := false]> (<["checkbox-char4" := false]> ∅)));
     promptInput := Some "P";
     aspectRatioSelect := Some "16:9";
     generateBtn := Some false;
     imageGallery := Some [];
     requests := [];
     console := [] |}.

(** The two characters a string literal cannot hold, spelled out for the
    statements. *)
Abbreviation dquote := (String "034"%char EmptyString).
Abbreviation newline := (String "010"%char EmptyString).

(** ** The upload boxes (lines 18-24 and 84-135)

    The handlers of the upload boxes touch, besides the store and the
    checkboxes, the preview images, the file inputs and the has-image class
    of the wrapper around each preview.  [Page] adds those to [World],
    together with the allocation counter that gives each object literal its
    identity. *)

Definition set_referenceImages (v : gmap string (option ReferenceImage)) (w : World)
  : World :=
  {| referenceImages := v; checkboxes := checkboxes w;
     promptInput := promptInput w; aspectRatioSelect := aspectRatioSelect w;
     generateBtn := generateBtn w; imageGallery := imageGallery w;
     requests := requests w; console := console w |}.

Definition set_checkboxes (v : gmap string bool) (w : World) : World :=
  {| referenceImages := referenceImages w; checkboxes := v;
     promptInput := promptInput w; aspectRatioSelect := aspectRatioSelect w;
     generateBtn := generateBtn w; imageGallery := imageGallery w;
     requests := requests w; console := console w |}.

(** [previews] and [fileInputs] map an element id to the [src] and the
    [value] written last; [closest_wrapper] maps the id of a preview to the
    nearest ancestor of class upload-box-wrapper, when there is one;
    [has_image] is the set of wrappers that carry the class has-image. *)
Record Page := {
  world : World;
  previews : gmap string string;
  fileInputs : gmap string string;
  closest_wrapper : gmap string nat;
  has_image : gset nat;
  next_oid : nat
}.

Definition set_world (v : World) (p : Page) : Page :=
  {| world := v; previews := previews p; fileInputs := fileInputs p;
     closest_wrapper := closest_wrapper p; has_image := has_image p;
     next_oid := next_oid p |}.

Definition set_previews (v : gmap string string) (p : Page) : Page :=
  {| world := world p; previews := v; fileInputs := fileInputs p;
     closest_wrapper := closest_wrapper p; has_image := has_image p;
     next_oid := next_oid p |}.

Definition set_fileInputs (v : gmap string string) (p : Page) : Page :=
  {| world := world p; previews := previews p; fileInputs := v;
     closest_wrapper := closest_wrapper p; has_image := has_image p;
     next_oid := next_oid p |}.

Definition set_has_image (v : gset nat) (p : Page) : Page :=
  {| world := world p; previews := previews p; fileInputs := fileInputs p;
     closest_wrapper := closest_wrapper p; has_image := v;
     next_oid := next_oid p |}.

Definition set_next_oid (v : nat) (p : Page) : Page :=
  {| world := world p; previews := previews p; fileInputs := fileInputs p;
     closest_wrapper := closest_wrapper p; has_image := has_image p;
     next_oid := v |}.

(** The store as the module creates it (lines 18-24). *)
Definition initial_referenceImages : gmap string (option ReferenceImage) :=
  <["char1" := None]>
    (<["char2" := None]>
       (<["char3" := None]> (<["char4" := None]> (<["bg" := None]> ∅)))).

Definition TypeError_null_set (prop : string) : Js.Thrown :=
  Js.ErrorObject "TypeError"
    ("Cannot set properties of null (setting '" +:+ prop +:+ "')").

(** *** The regular expression [/:(.*?);/]

    Strings hold UTF-8; the dot matches anything but a line terminator (line
    feed, carriage return, U+2028, U+2029). *)
Definition line_terminator_ahead (s : string) : bool :=
  String.prefix (String "010"%char "") s
  || String.prefix (String "013"%char "") s
  || String.prefix (String "226"%char (String "128"%char (String "168"%char ""))) s
  || String.prefix (String "226"%char (String "128"%char (String "169"%char ""))) s.

(** [(.*?);] from the start of [s]: the shortest run of non-terminators
    that is followed by a semicolon. *)
Fixpoint lazy_until_semicolon (s : string) : option string :=
  match s with
  | EmptyString => None
  | String c r =>
      if Ascii.eqb c ";"%char then Some ""
      else if line_terminator_ahead s then None
      else option_map (String c) (lazy_until_semicolon r)
  end.

(** [header.match(/:(.*?);/)?.[1]]: the group of the leftmost match. *)
Fixpoint match_colon_group (s : string) : option string :=
  match s with
  | EmptyString => None
  | String c r =>
      if Ascii.eqb c ":"%char then
        match lazy_until_semicolon r with
        | Some g => Some g
        | None => match_colon_group r
        end
      else match_colon_group r
  end.

(** *** handleFileChange: the [reader.onload] callback (lines 92-104)

    [dataUrl] is the result of the reader.  [split] always yields a first
    piece, the header; the second piece, the payload, is undefined when the
    result has no comma, and is stored as it is. *)
Definition handleFileChange_onload (id dataUrl : string) (p : Page)
  : Completion unit * Page :=
  match previews p !! ("preview-" +:+ id) with
  | None => (Throw (TypeError_null_set "src"), p)
  | Some _ =>
      let p := set_previews (<["preview-" +:+ id := dataUrl]> (previews p)) p in
      let pieces := Js.split ","%char dataUrl in
      let header := hd "" pieces in
      let base64 := pieces !! 1%nat in
      let mimeType := Js.or_else (match_colon_group header) "image/png" in
      let object := {| oid := next_oid p; base64 := base64; mimeType := mimeType |} in
      let p := set_next_oid (S (next_oid p)) p in
      let p :=
        set_world
          (set_referenceImages (<[id := Some object]> (referenceImages (world p)))
             (world p)) p in
      let p :=
        match closest_wrapper p !! ("preview-" +:+ id) with
        | Some wrapper => set_has_image ({[wrapper]} ∪ has_image p) p
        | None => p
        end in
      (Normal tt, p)
  end.

(** *** handleRemoveImage (lines 108-135) *)
Definition handleRemoveImage (id : string) (p : Page) : Completion unit * Page :=
  let p :=
    set_world
      (set_referenceImages (<[id := None]> (referenceImages (world p))) (world p)) p in
  let preview := previews p !! ("preview-" +:+ id) in
  let p :=
    match preview with
    | Some _ => set_previews (<["preview-" +:+ id := ""]> (previews p)) p
    | None => p
    end in
  let p :=
    match fileInputs p !! ("file-input-" +:+ id) with
    | Some _ => set_fileInputs (<["file-input-" +:+ id := ""]> (fileInputs p)) p
    | None => p
    end in
  match preview with
  | None => (Throw (Js.TypeError_null "closest"), p)
  | Some _ =>
      let p :=
        match closest_wrapper p !! ("preview-" +:+ id) with
        | Some wrapper => set_has_image (has_image p ∖ {[wrapper]}) p
        | None => p
        end in
      let p :=
        if String.prefix "char" id then
          match checkboxes (world p) !! ("checkbox-" +:+ id) with
          | Some _ =>
              set_world
                (set_checkboxes (<["checkbox-" +:+ id := false]> (checkboxes (world p)))
                   (world p)) p
          | None => p
          end
        else p in
      (Normal tt, p)
  end.

(** The data URL shown for an entry that carries bytes: the MIME type of the
    entry, or image/jpeg when it has none or an empty one, and the bytes. *)
Definition expected_source (generatedImage : GeneratedImage) : option string :=
  match generatedImage with
  | {| image := Some {| imageBytes := Some (String c r);
                        image_mimeType := Some (String m t) |} |} =>
      Some ("data:" +:+ String m t +:+ ";base64," +:+ String c r)
  | {| image := Some {| imageBytes := Some (String c r) |} |} =>
      Some ("data:image/jpeg;base64," +:+ String c r)
  | _ => None
  end.

(** Results with a MIME type, without one, and with an empty one. *)
Definition mimeless_results : list GeneratedImage :=
  [ {| image := Some {| imageBytes := Some "QUJD"; image_mimeType := Some "image/png" |} |};
    {| image := Some {| imageBytes := Some "REVG"; image_mimeType := None |} |};
    {| image := Some {| imageBytes := Some "R0hJ"; image_mimeType := Some "" |} |} ].

(** What [compose_and_display] does once the awaited call has resolved with
    [response] (lines 220-233). *)
Definition after_generateContent (response : GenerateContentResponse) : JS unit :=
  let* ps := response_parts response in
  match option_map (List.filter has_inlineData) ps with
  | Some (p :: rest) => displayImages (Some (map image_of_part (p :: rest)))
  | _ =>
      let* ps' := response_parts response in
      throw (Js.ErrorObject "Error"
               (Js.or_else (option_map joined_text ps') no_image_fallback))
  end.

(** A MIME type as a reader writes it: no semicolon and none of the bytes
    that start a line terminator. *)
Fixpoint mime_token (s : string) : bool :=
  match s with
  | EmptyString => true
  | String c r =>
      negb (Ascii.eqb c ";"%char) && negb (Ascii.eqb c "010"%char)
      && negb (Ascii.eqb c "013"%char) && negb (Ascii.eqb c "226"%char)
      && mime_token r
  end.

(** Pages the handlers can produce from a freshly loaded module: the store
    starts with its five slots empty; uploads and removals run; anything else
    that happens on the page (typing, ticking, submitting) leaves the store
    and the allocation counter alone. *)
Inductive reachable : Page -> Prop :=
| reach_initial (p : Page) :
    referenceImages (world p) = initial_referenceImages -> reachable p
| reach_upload (p : Page) (id dataUrl : string) :
    reachable p -> reachable (handleFileChange_onload id dataUrl p).2
| reach_remove (p : Page) (id : string) :
    reachable p -> reachable (handleRemoveImage id p).2
| reach_other (p p' : Page) :
    reachable p ->
    referenceImages (world p') = referenceImages (world p) ->
    next_oid p' = next_oid p ->
    reachable p'.

(** Stored objects were allocated before the counter, and no two slots hold
    the same object. *)
Definition store_wf (p : Page) : Prop :=
  (forall id r, slot (world p) id = Some r -> oid r < next_oid p)
  /\ (forall id1 id2 r1 r2,
        slot (world p) id1 = Some r1 -> slot (world p) id2 = Some r2 ->
        same_object r1 r2 = true -> id1 = id2).

(** A page with the five upload boxes in place, nothing loaded. *)
Definition sample_page : Page :=
  {| world := empty_world;
     previews :=
       <["preview-char1" := ""]>
         (<["preview-char2" := ""]>
            (<["preview-char3" := ""]>
               (<["preview-char4" := ""]> (<["preview-bg" := ""]> ∅))));
     fileInputs :=
       <["file-input-char1" := ""]>
         (<["file-input-char2" := ""]>
            (<["file-input-char3" := ""]>
               (<["file-input-char4" := ""]> (<["file-input-bg" := ""]> ∅))));
     closest_wrapper :=
       <["preview-char1" := 1]>
         (<["preview-char2" := 2]>
            (<["preview-char3" := 3]>
               (<["preview-char4" := 4]> (<["preview-bg" := 5]> ∅))));
     has_image := ∅;
     next_oid := 0 |}.

(** More worked inputs: a page without its prompt field; the sample page
    after a background and a first character were uploaded; services that resolve with images, with inline
    parts, with a content that has no parts, and with no candidates. *)
Definition no_prompt_world : World :=
  {| referenceImages := referenceImages empty_world;
     checkboxes := sample_checkboxes;
     promptInput := None;
     aspectRatioSelect := Some "1:1";
     generateBtn := Some false;
     imageGallery := Some [];
     requests := [];
     console := [] |}.

Definition uploaded_page : Page :=
  (handleFileChange_onload "char1" "data:image/jpeg;base64,REVG"
     (handleFileChange_onload "bg" "data:image/png;base64,QUJD" sample_page).2).2.

Definition images_response : GenerateImagesResponse :=
  {| generatedImages := Some sample_results |}.

Definition inline_parts : list Part :=
  [ {| inlineData := None; text := Some "Here you go" |};
    {| inlineData := Some {| data := Some "QUJD"; blob_mimeType := Some "image/png" |};
       text := None |} ].

Definition inline_response : GenerateContentResponse :=
  {| candidates := Some [ {| content := Some {| parts := Some inline_parts |} |} ] |}.

Definition images_ai : Service :=
  {| generateContent := fun _ => inr inline_response;
     generateImages := fun _ => inr images_response |}.

Definition partless_response : GenerateContentResponse :=
  {| candidates := Some [ {| content := Some {| parts := None |} |} ] |}.

Definition partless_ai : Service :=
  {| generateContent := fun _ => inr partless_response;
     generateImages := fun _ => inr images_response |}.

Definition blank_ai : Service :=
  {| generateContent := fun _ => inr {| candidates := None |};
     generateImages := fun _ => inr images_response |}.



Definition empty_message_ai : Service :=
  {| generateContent := fun _ => inl (Js.ErrorObject "Error" "");
     generateImages := fun _ => inl (Js.ErrorObject "Error" "") |}.

(** * Verification *)

(** ** Monad bookkeeping *)

Lemma bind_normal {A B} (m : JS A) (k : A -> JS B) w a w' :
  m w = (Normal a, w') -> bind m k w = k a w'.
Proof. unfold bind. intros ->. reflexivity. Qed.

Lemma bind_throw {A B} (m : JS A) (k : A -> JS B) w e w' :
  m w = (Throw e, w') -> bind m k w = (Throw e, w').
Proof. unfold bind. intros ->. reflexivity. Qed.

Lemma bind_gets {A B} (f : World -> A) (k : A -> JS B) w :
  bind (gets f) k w = k (f w) w.
Proof. reflexivity. Qed.

Lemma bind_ret {A B} (a : A) (k : A -> JS B) w : bind (ret a) k w = k a w.
Proof. reflexivity. Qed.

Lemma bind_modify {B} (f : World -> World) (k : unit -> JS B) w :
  bind (modify f) k w = k tt (f w).
Proof. reflexivity. Qed.

Ltac js_simpl :=
  repeat (first [rewrite bind_gets | rewrite bind_ret | rewrite bind_modify];
          cbn beta).

(** ** Selection resolver *)

Lemma getSelectedImages_for_spec (indices : list nat) :
  forall (selected : list ReferenceImage) (w : World),
    Forall (fun i => is_Some (checkboxes w !! ("checkbox-" +:+ char_id i))) indices ->
    getSelectedImages_for indices selected w
    = (Normal (selected ++ flat_map (slot_contribution w) indices), w).
Proof.
  induction indices as [|i rest IH]; intros selected w Hall.
  - cbn [getSelectedImages_for flat_map]. by rewrite app_nil_r.
  - apply Forall_cons in Hall as [[checked Hi] Hrest].
    cbn [getSelectedImages_for flat_map].
    js_simpl. rewrite Hi. cbn [prop]. js_simpl.
    unfold slot_contribution at 1. rewrite Hi.
    destruct checked, (slot w (char_id i)) as [r|]; cbn [contribution option_list];
      rewrite IH by assumption; by rewrite <- ?app_assoc.
Qed.

(** C1. For every state of the five slots and of the four checkboxes the
    resolver returns, without touching the page, the background image (when
    one is stored) followed by the images of the character slots 1 to 4 in
    slot order, a slot contributing exactly when its checkbox is checked and
    it holds an image: a slot that holds an image but is not checked, or is
    checked but empty, adds nothing. *)
Theorem getSelectedImages_exact (w : World) (b1 b2 b3 b4 : bool) :
  checkboxes w !! "checkbox-char1" = Some b1 ->
  checkboxes w !! "checkbox-char2" = Some b2 ->
  checkboxes w !! "checkbox-char3" = Some b3 ->
  checkboxes w !! "checkbox-char4" = Some b4 ->
  getSelectedImages w
  = (Normal (option_list (slot w "bg")
             ++ contribution b1 (slot w "char1")
             ++ contribution b2 (slot w "char2")
             ++ contribution b3 (slot w "char3")
             ++ contribution b4 (slot w "char4")), w)
  /\ (forall r, contribution true (Some r) = [r])
  /\ (forall r, contribution false (Some r) = [])
  /\ (forall checked, contribution checked None = []).
Proof.
  intros H1 H2 H3 H4.
  split; [|split; [done|split; [done|by intros []]]].
  unfold getSelectedImages. js_simpl.
  rewrite getSelectedImages_for_spec.
  - change (seq 1 4) with [1; 2; 3; 4]%nat. cbn [flat_map].
    unfold slot_contribution.
    change (char_id 1) with "char1". change (char_id 2) with "char2".
    change (char_id 3) with "char3". change (char_id 4) with "char4".
    change ("checkbox-" +:+ "char1") with "checkbox-char1".
    change ("checkbox-" +:+ "char2") with "checkbox-char2".
    change ("checkbox-" +:+ "char3") with "checkbox-char3".
    change ("checkbox-" +:+ "char4") with "checkbox-char4".
    rewrite H1, H2, H3, H4, app_nil_r.
    by destruct (slot w "bg").
  - change (seq 1 4) with [1; 2; 3; 4]%nat.
    repeat apply Forall_cons_2; try apply Forall_nil_2; eexists; eassumption.
Qed.

(** ** Gallery renderer *)

Lemma set_imageGallery_twice v1 v2 w :
  set_imageGallery v2 (set_imageGallery v1 w) = set_imageGallery v2 w.
Proof. reflexivity. Qed.

Lemma appendChild_present n w g :
  imageGallery w = Some g ->
  appendChild n w = (Normal tt, set_imageGallery (Some (g ++ [n])) w).
Proof. unfold appendChild, modify. intros ->. reflexivity. Qed.

Lemma displayImages_forEach_spec (l : list GeneratedImage) :
  forall (index : nat) (w : World) (g : list GalleryNode),
    imageGallery w = Some g ->
    displayImages_forEach index l w
    = (Normal tt,
       set_imageGallery
         (Some (g ++ map Item (omap id (imap (fun i x => rendered (index + i) x) l)))) w).
Proof.
  induction l as [|x rest IH]; intros index w g Hg.
  - cbn. rewrite app_nil_r, <- Hg. by destruct w.
  - cbn [displayImages_forEach imap omap].
    assert (Hshift : imap ((fun i y => rendered (index + i) y) ∘ S) rest
                     = imap (fun i y => rendered (S index + i) y) rest).
    { apply imap_ext. intros i y _. cbn. f_equal. lia. }
    rewrite Hshift. rewrite Nat.add_0_r. unfold rendered at 1.
    destruct (image_bytes x) as [[|c r]|] eqn:Hb.
    + js_simpl. rewrite (IH _ _ g Hg). reflexivity.
    + erewrite bind_normal by (apply appendChild_present; eassumption).
      erewrite IH by reflexivity.
      rewrite set_imageGallery_twice. cbn [id map]. by rewrite <- app_assoc.
    + js_simpl. rewrite (IH _ _ g Hg). reflexivity.
Qed.

Lemma displayImages_nonempty w g x rest :
  imageGallery w = Some g ->
  displayImages (Some (x :: rest)) w
  = (Normal tt,
     set_imageGallery
       (Some (map Item (omap id (imap (fun i y => rendered i y) (x :: rest))))) w).
Proof.
  intros Hg. unfold displayImages. js_simpl. rewrite Hg. js_simpl.
  erewrite displayImages_forEach_spec by reflexivity.
  rewrite set_imageGallery_twice. reflexivity.
Qed.

Lemma displayImages_none_or_empty w g gis :
  imageGallery w = Some g ->
  gis = None \/ gis = Some [] ->
  displayImages gis w
  = (Normal tt,
     set_imageGallery (Some [Markup (message_html no_images_message false)]) w).
Proof.
  intros Hg Hgis. unfold displayImages. js_simpl. rewrite Hg. js_simpl.
  destruct Hgis as [-> | ->]; unfold setMessage; js_simpl; reflexivity.
Qed.

Lemma displayImages_absent_gallery w gis :
  imageGallery w = None -> displayImages gis w = (Normal tt, w).
Proof. intros Hg. unfold displayImages. js_simpl. by rewrite Hg. Qed.

(** *** Strings: [split] and the file extension *)

Lemma append_cons (a : ascii) (s t : string) :
  String a s +:+ t = String a (s +:+ t).
Proof. reflexivity. Qed.

Lemma append_nil_r (s : string) : s +:+ "" = s.
Proof. induction s as [|a s IH]; [done|]. by rewrite append_cons, IH. Qed.

Lemma append_snoc (cur : string) (x : ascii) (s : string) :
  (cur +:+ String x "") +:+ s = cur +:+ String x s.
Proof. induction cur as [|a cur IH]; [done|]. by rewrite !append_cons, IH. Qed.

Lemma split_go_no_sep (c : ascii) (s : string) :
  forall cur, has_char c s = false -> Js.split_go c cur s = [cur +:+ s].
Proof.
  induction s as [|a s IH]; intros cur Hs.
  - cbn [Js.split_go]. by rewrite append_nil_r.
  - cbn [Js.split_go has_char] in *.
    apply orb_false_iff in Hs as [-> Hs]. by rewrite IH, append_snoc.
Qed.

Lemma split_go_first_sep (c : ascii) (a b : string) :
  forall cur, has_char c a = false ->
    Js.split_go c cur (a +:+ String c b) = (cur +:+ a) :: Js.split_go c "" b.
Proof.
  induction a as [|x a IH]; intros cur Ha.
  - change ("" +:+ String c b) with (String c b). cbn [Js.split_go].
    by rewrite Ascii.eqb_refl, append_nil_r.
  - rewrite append_cons. cbn [Js.split_go has_char] in *.
    apply orb_false_iff in Ha as [-> Ha]. by rewrite IH, append_snoc.
Qed.

Lemma fileExtension_of_subtype (ty sub : string) :
  has_char "/" ty = false -> has_char "/" sub = false -> sub <> "" ->
  fileExtension_of (ty +:+ "/" +:+ sub) = sub.
Proof.
  intros Hty Hsub Hne. unfold fileExtension_of, Js.split.
  change ("/" +:+ sub) with (String "/"%char sub).
  rewrite split_go_first_sep, split_go_no_sep by assumption.
  cbn. by destruct sub.
Qed.

Lemma fileExtension_of_no_slash (m : string) :
  has_char "/" m = false -> fileExtension_of m = "jpeg".
Proof.
  intros Hm. unfold fileExtension_of, Js.split.
  by rewrite split_go_no_sep.
Qed.

(** *** Download names *)

Lemma rendered_download (position : nat) (x : GeneratedImage) :
  btn_download <$> rendered position x
  = if carries_bytes x then Some (download_name position x) else None.
Proof.
  unfold rendered, carries_bytes, Js.truthy.
  by destruct (image_bytes x) as [[|c r]|].
Qed.

Lemma map_omap_imap {A B C} (h : B -> C) (l : list A) :
  forall f : nat -> A -> option B,
    map h (omap id (imap f l)) = omap id (imap (fun i x => h <$> f i x) l).
Proof.
  induction l as [|x rest IH]; intros f; [reflexivity|].
  rewrite !imap_cons.
  destruct (f 0 x) as [y|]; simpl; rewrite IH; reflexivity.
Qed.

Lemma downloads_of_rendered (l : list GeneratedImage) :
  map btn_download (omap id (imap rendered l)) = expected_downloads l.
Proof.
  rewrite map_omap_imap. unfold expected_downloads. f_equal.
  apply imap_ext. intros i x _. apply rendered_download.
Qed.

Lemma gallery_items_of_items (items : list GalleryItem) :
  gallery_items (map Item items) = items.
Proof.
  induction items as [|x items IH]; [reflexivity|].
  change (gallery_items (map Item (x :: items)))
    with (x :: gallery_items (map Item items)).
  by rewrite IH.
Qed.

Lemma expected_downloads_lookup (gis : list GeneratedImage) i gi :
  gis !! i = Some gi -> carries_bytes gi = true ->
  download_name i gi ∈ expected_downloads gis.
Proof.
  intros Hi Hb. unfold expected_downloads. apply list_elem_of_omap.
  exists (Some (download_name i gi)). split; [|reflexivity].
  apply (list_elem_of_lookup_2 _ i). by rewrite list_lookup_imap, Hi; cbn; rewrite Hb.
Qed.

(** C5. Every entry of a result list that carries image bytes gets a
    download control named generated-image-<position+1>.<extension>,
    the position being counted in the whole result list (skipped entries
    included); the extension is the part of the MIME type after the slash
    and jpeg when there is none; a single image/png result is named
    generated-image-1.png. *)
Theorem displayImages_download_names (w : World) (g : list GalleryNode)
    (gis : list GeneratedImage) :
  imageGallery w = Some g ->
  (exists nodes : list GalleryNode,
      imageGallery (displayImages (Some gis) w).2 = Some nodes
      /\ map btn_download (gallery_items nodes) = expected_downloads gis)
  /\ (forall i gi, gis !! i = Some gi -> carries_bytes gi = true ->
        download_name i gi ∈ expected_downloads gis)
  /\ (forall ty sub, has_char "/" ty = false -> has_char "/" sub = false ->
        sub <> "" -> fileExtension_of (ty +:+ "/" +:+ sub) = sub)
  /\ (forall m, has_char "/" m = false -> fileExtension_of m = "jpeg")
  /\ (forall c r,
        expected_downloads
          [ {| image := Some {| imageBytes := Some (String c r);
                                image_mimeType := Some "image/png" |} |} ]
        = ["generated-image-1.png"]).
Proof.
  intros Hg. repeat split.
  - destruct gis as [|x rest].
    + rewrite (displayImages_none_or_empty w g) by auto.
      eexists. split; reflexivity.
    + rewrite (displayImages_nonempty _ g) by assumption.
      cbn [snd imageGallery set_imageGallery].
      eexists. split; [reflexivity|]. rewrite gallery_items_of_items.
      apply (downloads_of_rendered (x :: rest)).
  - intros i gi. apply expected_downloads_lookup.
  - apply fileExtension_of_subtype.
  - apply fileExtension_of_no_slash.
Qed.

Lemma displayImages_download_names_witness :
  exists nodes : list GalleryNode,
    imageGallery (displayImages (Some sample_results) sample_world).2 = Some nodes
    /\ map btn_download (gallery_items nodes)
       = ["generated-image-1.png"; "generated-image-3.jpeg"].
Proof.
  destruct (displayImages_download_names sample_world [Markup "previous"]
              sample_results eq_refl)
    as [(nodes & Hgal & Hnames) _].
  exists nodes. split; [exact Hgal|]. rewrite Hnames. vm_compute. reflexivity.
Defined.

(** C6. With an absent or an empty result list the renderer replaces
    whatever the gallery held by the single no-images message, the markup
    <div class="message ">No images were generated or the response was
    empty.</div>, and creates no gallery item. *)
Theorem displayImages_absent_or_empty (w : World) (g : list GalleryNode)
    (gis : option (list GeneratedImage)) :
  imageGallery w = Some g ->
  gis = None \/ gis = Some [] ->
  displayImages gis w
  = (Normal tt,
     set_imageGallery
       (Some [Markup ("<div class=" +:+ dquote +:+ "message " +:+ dquote
                        +:+ ">No images were generated or the response was empty."
                        +:+ "</div>")]) w)
  /\ forall nodes, imageGallery (displayImages gis w).2 = Some nodes ->
                   gallery_items nodes = [].
Proof.
  intros Hg Hgis. rewrite (displayImages_none_or_empty w g gis Hg Hgis).
  split; [reflexivity|]. cbn. intros nodes [= <-]. reflexivity.
Qed.

(** C10. With a non-empty result list none of whose entries carries image
    bytes the renderer empties the gallery and adds nothing: no item and no
    message. *)
Theorem displayImages_no_bytes (w : World) (g : list GalleryNode)
    (gis : list GeneratedImage) :
  imageGallery w = Some g ->
  gis <> [] ->
  Forall (fun gi => carries_bytes gi = false) gis ->
  displayImages (Some gis) w = (Normal tt, set_imageGallery (Some []) w).
Proof.
  intros Hg Hne Hall. destruct gis as [|x rest]; [done|].
  rewrite (displayImages_nonempty _ g) by assumption.
  enough (Hk : forall (l : list GeneratedImage) (f : nat -> GeneratedImage -> option GalleryItem),
             Forall (fun gi => forall i, f i gi = None) l -> omap id (imap f l) = []).
  { rewrite (Hk (x :: rest) (fun i y => rendered i y)); [reflexivity|].
    eapply Forall_impl; [exact Hall|]. intros gi Hgi i.
    unfold rendered, carries_bytes, Js.truthy in *.
    by destruct (image_bytes gi) as [[|c r]|]. }
  clear. induction l as [|y l IH]; intros f Hall; [reflexivity|].
  apply Forall_cons in Hall as [Hy Hl]. rewrite imap_cons, Hy. simpl.
  apply IH. eapply Forall_impl; [exact Hl|]. intros gi Hgi i. apply Hgi.
Qed.

(** ** Prompt composer *)

Lemma append_assoc (a b c : string) : (a +:+ b) +:+ c = a +:+ (b +:+ c).
Proof. induction a as [|x a IH]; [done|]. by rewrite !append_cons, IH. Qed.

Lemma prefix_append (a b : string) : String.prefix a (a +:+ b) = true.
Proof.
  induction a as [|x a IH]; [by destruct b|].
  rewrite append_cons. cbn [String.prefix].
  destruct (ascii_dec x x); [exact IH | congruence].
Qed.

Lemma prefix_append_l (n hay s : string) :
  String.prefix n hay = true -> String.prefix n (hay +:+ s) = true.
Proof.
  revert hay. induction n as [|x n IH]; intros hay H.
  - by destruct (hay +:+ s).
  - destruct hay as [|y hay]; [discriminate|].
    rewrite append_cons. cbn [String.prefix] in *.
    destruct (ascii_dec x y); [by apply IH | discriminate].
Qed.

Lemma includes_unfold (hay needle : string) :
  Js.includes hay needle
  = String.prefix needle hay
    || match hay with EmptyString => false | String _ r => Js.includes r needle end.
Proof. by destruct hay. Qed.

Lemma includes_prefix (a b : string) : Js.includes (a +:+ b) a = true.
Proof. by rewrite includes_unfold, prefix_append. Qed.

Lemma includes_append_l (hay needle s : string) :
  Js.includes hay needle = true -> Js.includes (hay +:+ s) needle = true.
Proof.
  induction hay as [|x hay IH]; intros H; rewrite includes_unfold in H |- *;
    apply orb_true_iff in H as [H|H].
  - by rewrite prefix_append_l.
  - discriminate.
  - by rewrite prefix_append_l.
  - rewrite append_cons, IH by assumption. apply orb_true_r.
Qed.

Lemma includes_append_r (p hay needle : string) :
  Js.includes hay needle = true -> Js.includes (p +:+ hay) needle = true.
Proof.
  intros H. induction p as [|x p IH]; [exact H|].
  rewrite append_cons, includes_unfold, IH. apply orb_true_r.
Qed.

Lemma endsWith_unfold (hay suffix : string) :
  Js.endsWith hay suffix
  = String.eqb hay suffix
    || match hay with EmptyString => false | String _ r => Js.endsWith r suffix end.
Proof. by destruct hay. Qed.

Lemma endsWith_append (p s : string) : Js.endsWith (p +:+ s) s = true.
Proof.
  induction p as [|x p IH].
  - change ("" +:+ s) with s. by rewrite endsWith_unfold, String.eqb_refl.
  - rewrite append_cons, endsWith_unfold, IH. apply orb_true_r.
Qed.

Lemma hasBg_of_true_iff bg sel :
  hasBg_of bg sel = true
  <-> exists b s, bg = Some b /\ head sel = Some s /\ same_object b s = true.
Proof.
  unfold hasBg_of. split.
  - intros [_ H]%andb_true_iff.
    destruct bg as [b|], (head sel) as [s|]; try discriminate. eauto.
  - intros (b & s & -> & Hs & Hbs). rewrite Hs, Hbs.
    destruct sel; [discriminate|reflexivity].
Qed.

(** With something selected the composer always emits an instruction. *)
Lemma instructions_of_nonempty bg sel :
  sel <> [] ->
  instructions_of (hasBg_of bg sel) (numCharacters_of (hasBg_of bg sel) sel) <> [].
Proof.
  intros Hsel. unfold instructions_of, numCharacters_of.
  destruct (hasBg_of bg sel).
  - by destruct (0 <? length sel - 1).
  - destruct sel as [|x sel]; [done|]. cbn [length]. discriminate.
Qed.

(** C2. For a non-empty selection: hasBg holds exactly when the first
    selected image is the stored background object; numCharacters is the
    length of the selection, less one when hasBg; the final prompt is the
    instructions joined by single spaces, two newlines, the creative brief
    label with the user's prompt in double quotes, then the closing sentence
    that fixes the aspect ratio, with which the string ends. *)
Theorem composePrompt_shape (bg : option ReferenceImage)
    (selectedImages : list ReferenceImage) (prompt aspectRatio : string) :
  selectedImages <> [] ->
  let hasBg := hasBg_of bg selectedImages in
  let numCharacters := numCharacters_of hasBg selectedImages in
  (hasBg = true
   <-> exists b s, bg = Some b /\ head selectedImages = Some s
                   /\ same_object b s = true)
  /\ numCharacters
     = (if hasBg then length selectedImages - 1 else length selectedImages)
  /\ composePrompt bg selectedImages prompt aspectRatio
     = Js.join " " (instructions_of hasBg numCharacters)
         +:+ Js.nl +:+ Js.nl
         +:+ "Here is the creative brief: " +:+ Js.dq +:+ prompt +:+ Js.dq
         +:+ Js.nl +:+ Js.nl
         +:+ "Finally, the image must have a " +:+ aspectRatio +:+ " aspect ratio."
  /\ Js.endsWith (composePrompt bg selectedImages prompt aspectRatio)
       ("Finally, the image must have a " +:+ aspectRatio +:+ " aspect ratio.")
     = true.
Proof.
  intros Hsel hasBg numCharacters.
  assert (Hshape :
    composePrompt bg selectedImages prompt aspectRatio
    = Js.join " " (instructions_of hasBg numCharacters)
        +:+ Js.nl +:+ Js.nl
        +:+ "Here is the creative brief: " +:+ Js.dq +:+ prompt +:+ Js.dq
        +:+ Js.nl +:+ Js.nl
        +:+ "Finally, the image must have a " +:+ aspectRatio +:+ " aspect ratio.").
  { unfold composePrompt, finalPrompt_of, aspect_sentence.
    fold hasBg. fold numCharacters.
    pose proof (instructions_of_nonempty bg selectedImages Hsel) as Hne.
    fold hasBg in Hne. fold numCharacters in Hne.
    destruct (instructions_of hasBg numCharacters) as [|i l]; [done|].
    cbn [length Nat.ltb Nat.leb]. by rewrite !append_assoc. }
  split; [apply hasBg_of_true_iff|]. split; [reflexivity|]. split; [exact Hshape|].
  rewrite Hshape.
  rewrite <- !append_assoc.
  rewrite (append_assoc _ "Finally, the image must have a ").
  rewrite (append_assoc _ _ " aspect ratio.").
  apply endsWith_append.
Qed.

Lemma composePrompt_shape_witness :
  Js.endsWith
    (composePrompt None [ {| oid := 1; base64 := Some "QQ=="; mimeType := "image/png" |} ]
       "P" "16:9")
    "Finally, the image must have a 16:9 aspect ratio." = true.
Proof.
  apply (composePrompt_shape None
           [ {| oid := 1; base64 := Some "QQ=="; mimeType := "image/png" |} ] "P" "16:9").
  discriminate.
Defined.

Lemma same_object_refl (b : ReferenceImage) : same_object b b = true.
Proof. apply Nat.eqb_refl. Qed.

(** C8 (as amended). When the selection is the stored background image
    alone, the only instruction the composer emits is the background-removal
    instruction, and the composed prompt is exactly that instruction, two
    newlines, the creative brief with the user's prompt in double quotes, two
    newlines and the aspect-ratio sentence.  It therefore contains the
    background-removal instruction, and whatever else it contains comes from
    the user's own prompt or aspect ratio. *)
Theorem composePrompt_background_only (b : ReferenceImage)
    (prompt aspectRatio : string) :
  hasBg_of (Some b) [b] = true
  /\ numCharacters_of (hasBg_of (Some b) [b]) [b] = 0
  /\ instructions_of (hasBg_of (Some b) [b])
       (numCharacters_of (hasBg_of (Some b) [b]) [b])
     = ["Use the first provided image as the main background. Critically, you must remove any people from this image, using only the scenery as the background for the final composition."]
  /\ composePrompt (Some b) [b] prompt aspectRatio
     = "Use the first provided image as the main background. Critically, you must remove any people from this image, using only the scenery as the background for the final composition."
         +:+ newline +:+ newline
         +:+ "Here is the creative brief: " +:+ dquote +:+ prompt +:+ dquote
         +:+ newline +:+ newline
         +:+ "Finally, the image must have a " +:+ aspectRatio +:+ " aspect ratio."
  /\ Js.includes (composePrompt (Some b) [b] prompt aspectRatio)
       "Use the first provided image as the main background. Critically, you must remove any people from this image, using only the scenery as the background for the final composition."
     = true.
Proof.
  assert (Hbg : hasBg_of (Some b) [b] = true).
  { unfold hasBg_of. cbn [length head Nat.ltb Nat.leb andb]. apply same_object_refl. }
  assert (Hshape : composePrompt (Some b) [b] prompt aspectRatio
     = bg_instruction +:+ Js.nl +:+ Js.nl
         +:+ "Here is the creative brief: " +:+ Js.dq +:+ prompt +:+ Js.dq
         +:+ aspect_sentence aspectRatio).
  { unfold composePrompt. rewrite Hbg. unfold finalPrompt_of.
    cbn [numCharacters_of length Nat.sub instructions_of Nat.ltb Nat.leb Js.join].
    by rewrite !append_assoc. }
  rewrite Hbg. split; [reflexivity|]. split; [reflexivity|].
  split; [reflexivity|]. split.
  - rewrite Hshape. unfold aspect_sentence. reflexivity.
  - rewrite Hshape. apply (includes_prefix bg_instruction).
Qed.

(** C9. With two character images selected and no background, the prompt
    contains the words "Combine the 2 characters" (plural) and the fixed
    instruction that each distinct character appears only once and none is
    omitted or duplicated. *)
Theorem composePrompt_two_characters (bg : option ReferenceImage)
    (c1 c2 : ReferenceImage) (prompt aspectRatio : string) :
  hasBg_of bg [c1; c2] = false ->
  Js.includes (composePrompt bg [c1; c2] prompt aspectRatio)
    "Combine the 2 characters" = true
  /\ Js.includes (composePrompt bg [c1; c2] prompt aspectRatio)
       "Crucially, ensure each distinct character appears only once in the final image and that no characters are omitted or duplicated."
     = true
  /\ instructions_of (hasBg_of bg [c1; c2])
       (numCharacters_of (hasBg_of bg [c1; c2]) [c1; c2])
     = [ "Combine the 2 characters from the reference images into a single cohesive scene based on the text prompt.";
         "Crucially, ensure each distinct character appears only once in the final image and that no characters are omitted or duplicated." ].
Proof.
  intros Hbg. unfold composePrompt. rewrite Hbg.
  assert (Hi : instructions_of false (numCharacters_of false [c1; c2])
     = [ "Combine the 2 characters from the reference images into a single cohesive scene based on the text prompt.";
         "Crucially, ensure each distinct character appears only once in the final image and that no characters are omitted or duplicated." ])
    by reflexivity.
  rewrite Hi. unfold finalPrompt_of.
  cbn [length Nat.ltb Nat.leb].
  rewrite !append_assoc.
  repeat split; apply includes_append_l; vm_compute; reflexivity.
Qed.

Lemma composePrompt_two_characters_witness :
  Js.includes
    (composePrompt None
       [ {| oid := 1; base64 := Some "QQ=="; mimeType := "image/png" |};
         {| oid := 2; base64 := Some "Qg=="; mimeType := "image/jpeg" |} ] "P" "1:1")
    "Combine the 2 characters" = true.
Proof.
  apply (composePrompt_two_characters None
           {| oid := 1; base64 := Some "QQ=="; mimeType := "image/png" |}
           {| oid := 2; base64 := Some "Qg=="; mimeType := "image/jpeg" |} "P" "1:1").
  reflexivity.
Defined.

(** ** The generation operation *)

(** *** What each step may change *)

Lemma world_eta (w : World) :
  set_imageGallery (imageGallery w) (set_requests (requests w) w) = w.
Proof. by destruct w. Qed.

Lemma getSelectedImages_for_pure (indices : list nat) :
  forall selected w, (getSelectedImages_for indices selected w).2 = w.
Proof.
  induction indices as [|i rest IH]; intros selected w; [reflexivity|].
  cbn [getSelectedImages_for]. js_simpl.
  destruct (checkboxes w !! ("checkbox-" +:+ char_id i)) as [checked|];
    [|reflexivity].
  cbn [prop]. js_simpl.
  destruct checked, (slot w (char_id i)); apply IH.
Qed.

Lemma getSelectedImages_pure (w : World) : (getSelectedImages w).2 = w.
Proof. unfold getSelectedImages. js_simpl. apply getSelectedImages_for_pure. Qed.

Lemma getSelectedImages_for_ext (indices : list nat) :
  forall selected w1 w2,
    referenceImages w1 = referenceImages w2 ->
    checkboxes w1 = checkboxes w2 ->
    (getSelectedImages_for indices selected w1).1
    = (getSelectedImages_for indices selected w2).1.
Proof.
  induction indices as [|i rest IH]; intros selected w1 w2 Hr Hc; [reflexivity|].
  cbn [getSelectedImages_for]. js_simpl. rewrite Hc.
  destruct (checkboxes w2 !! ("checkbox-" +:+ char_id i)) as [checked|];
    [|reflexivity].
  cbn [prop]. js_simpl. unfold slot. rewrite Hr.
  destruct checked, (mjoin (referenceImages w2 !! char_id i)); by apply IH.
Qed.

Lemma getSelectedImages_ext (w1 w2 : World) :
  referenceImages w1 = referenceImages w2 ->
  checkboxes w1 = checkboxes w2 ->
  (getSelectedImages w1).1 = (getSelectedImages w2).1.
Proof.
  intros Hr Hc. unfold getSelectedImages. js_simpl. unfold slot. rewrite Hr.
  by apply getSelectedImages_for_ext.
Qed.

Lemma displayImages_world (gis : option (list GeneratedImage)) (w : World) :
  exists v, displayImages gis w = (Normal tt, set_imageGallery v w)
            /\ (is_Some (imageGallery w) -> is_Some v).
Proof.
  destruct (imageGallery w) as [g|] eqn:Hg.
  - destruct gis as [[|x rest]|].
    + eexists. split; [by apply (displayImages_none_or_empty w g); auto|eauto].
    + eexists. split; [by apply (displayImages_nonempty w g)|eauto].
    + eexists. split; [by apply (displayImages_none_or_empty w g); auto|eauto].
  - exists None. rewrite displayImages_absent_gallery by assumption.
    split; [|by intros []]. destruct w; cbn in *; by subst.
Qed.

Lemma setMessage_present message isError w g :
  imageGallery w = Some g ->
  setMessage message isError w
  = (Normal tt, set_imageGallery (Some [Markup (message_html message isError)]) w).
Proof. intros Hg. unfold setMessage. js_simpl. by rewrite Hg. Qed.

Lemma set_disabled_present v w d :
  generateBtn w = Some d -> set_disabled v w = (Normal tt, set_generateBtn (Some v) w).
Proof. intros Hb. unfold set_disabled. by rewrite Hb. Qed.

Section Client_facts.

Variable ai : Service.

Lemma compose_and_display_world prompt aspectRatio selectedImages w :
  exists c v,
    compose_and_display ai prompt aspectRatio selectedImages w
    = (c, set_imageGallery v
            (set_requests
               (requests w ++ [GenerateContent
                                 (composition_request (slot w "bg") selectedImages
                                    prompt aspectRatio)]) w))
    /\ (is_Some (imageGallery w) -> is_Some v).
Proof.
  unfold compose_and_display. js_simpl. unfold bind at 1, await_generateContent.
  set (req := {| cr_model := _ |}).
  set (w' := set_requests _ w).
  assert (Hw' : set_imageGallery (imageGallery w) w' = w') by (by destruct w).
  destruct (generateContent ai req) as [e|response].
  { exists (Throw e), (imageGallery w). by rewrite Hw'. }
  unfold response_parts.
  destruct (candidates response) as [cs|]; [destruct (head cs) as [c|];
    [destruct (content c) as [ct|]; [destruct (parts ct) as [ps|]|]|]|];
    js_simpl; cbn [option_map];
    try (eexists _, (imageGallery w); rewrite Hw'; split; [reflexivity|done]).
  destruct (List.filter has_inlineData ps) as [|p rest].
  - js_simpl. eexists _, (imageGallery w). rewrite Hw'. split; [reflexivity|done].
  - destruct (displayImages_world (Some (map image_of_part (p :: rest))) w')
      as (v & -> & Hv).
    eexists _, v. split; [reflexivity|exact Hv].
Qed.

Lemma text_to_image_world prompt aspectRatio w :
  exists c v,
    text_to_image ai prompt aspectRatio w
    = (c, set_imageGallery v
            (set_requests
               (requests w ++ [GenerateImages (text_request prompt aspectRatio)]) w))
    /\ (is_Some (imageGallery w) -> is_Some v).
Proof.
  unfold text_to_image, bind at 1, await_generateImages.
  set (req := {| ir_model := _ |}).
  set (w' := set_requests _ w).
  assert (Hw' : set_imageGallery (imageGallery w) w' = w') by (by destruct w).
  destruct (generateImages ai req) as [e|response].
  { exists (Throw e), (imageGallery w). by rewrite Hw'. }
  destruct (displayImages_world (generatedImages response) w') as (v & -> & Hv).
  eexists _, v. split; [reflexivity|exact Hv].
Qed.

End Client_facts.

(** The resolver only ever appends to what it has collected. *)
Lemma getSelectedImages_for_prefix (indices : list nat) :
  forall selected w sel,
    (getSelectedImages_for indices selected w).1 = Normal sel ->
    exists rest, sel = selected ++ rest.
Proof.
  induction indices as [|i more IH]; intros selected w sel.
  - cbn. intros [= <-]. exists []. by rewrite app_nil_r.
  - cbn [getSelectedImages_for]. js_simpl.
    destruct (checkboxes w !! ("checkbox-" +:+ char_id i)) as [checked|];
      [|discriminate].
    cbn [prop]. js_simpl.
    destruct checked, (slot w (char_id i)) as [r|]; intros H;
      apply IH in H as [rest ->]; eauto.
    exists (r :: rest). by rewrite <- app_assoc.
Qed.

(** On what the resolver returns, hasBg says whether a background image is
    stored. *)
Lemma hasBg_of_selection (w : World) (sel : list ReferenceImage) :
  (getSelectedImages w).1 = Normal sel ->
  sel <> [] ->
  hasBg_of (slot w "bg") sel = bool_decide (is_Some (slot w "bg")).
Proof.
  unfold getSelectedImages. js_simpl. intros H Hne.
  apply getSelectedImages_for_prefix in H as [rest ->].
  destruct (slot w "bg") as [b|].
  - unfold hasBg_of. cbn [app length head Nat.ltb Nat.leb andb].
    rewrite same_object_refl. symmetry. apply bool_decide_eq_true. eauto.
  - unfold hasBg_of. rewrite andb_false_r. symmetry.
    apply bool_decide_eq_false. by intros [? ?].
Qed.

Lemma try_entry_fields (w : World) :
  referenceImages (try_entry w) = referenceImages w
  /\ checkboxes (try_entry w) = checkboxes w
  /\ promptInput (try_entry w) = promptInput w
  /\ aspectRatioSelect (try_entry w) = aspectRatioSelect w
  /\ generateBtn (try_entry w) = Some true
  /\ requests (try_entry w) = requests w
  /\ console (try_entry w) = console w
  /\ (is_Some (imageGallery w) -> is_Some (imageGallery (try_entry w))).
Proof.
  unfold try_entry, setMessage. js_simpl.
  cbn [imageGallery set_generateBtn].
  destruct (imageGallery w) eqn:Hg; cbn; rewrite ?Hg; repeat split; eauto.
Qed.

Lemma setMessage_total message isError w :
  setMessage message isError w = (Normal tt, (setMessage message isError w).2).
Proof. unfold setMessage. js_simpl. by destruct (imageGallery w). Qed.

Lemma generate_catch_world (e : Js.Thrown) (w : World) :
  generate_catch e w = (Normal tt, (generate_catch e w).2)
  /\ generateBtn (generate_catch e w).2 = generateBtn w
  /\ requests (generate_catch e w).2 = requests w
  /\ console (generate_catch e w).2 = console w ++ [e]
  /\ (is_Some (imageGallery w) ->
      imageGallery (generate_catch e w).2
      = Some [Markup (message_html ("Error: " +:+ errorMessage_of e) true)]).
Proof.
  unfold generate_catch, setMessage. js_simpl. cbn [imageGallery set_console].
  destruct (imageGallery w) eqn:Hg; cbn; repeat split; done.
Qed.

Section Generation.

Variable ai : Service.

Lemma generate_try_world (w : World) :
  exists c v rs,
    generate_try ai w = (c, set_imageGallery v (set_requests rs w))
    /\ (is_Some (imageGallery w) -> is_Some v).
Proof.
  unfold generate_try. js_simpl.
  destruct (promptInput w) as [prompt|]; cbn [prop];
    [|eexists _, _, _; rewrite world_eta; split; [reflexivity|done]].
  js_simpl.
  destruct (getSelectedImages w) as [[sel|e] w'] eqn:Hsel;
    pose proof (getSelectedImages_pure w) as Hw; rewrite Hsel in Hw;
    cbn [snd] in Hw; subst w'.
  2:{ erewrite bind_throw by eassumption.
      eexists _, _, _; rewrite world_eta; split; [reflexivity|done]. }
  erewrite bind_normal by eassumption. js_simpl.
  destruct (aspectRatioSelect w) as [ar|]; cbn [prop];
    [|eexists _, _, _; rewrite world_eta; split; [reflexivity|done]].
  js_simpl.
  destruct (0 <? length sel).
  - destruct (compose_and_display_world ai prompt ar sel w) as (c & v & -> & Hv).
    eauto 6.
  - destruct (text_to_image_world ai prompt ar w) as (c & v & -> & Hv).
    eauto 6.
Qed.

Lemma generate_try_request (w : World) prompt aspectRatio sel :
  promptInput w = Some prompt ->
  aspectRatioSelect w = Some aspectRatio ->
  (getSelectedImages w).1 = Normal sel ->
  exists c v,
    generate_try ai w
    = (c, set_imageGallery v
            (set_requests
               (requests w ++
                  [match sel with
                   | [] => GenerateImages (text_request prompt aspectRatio)
                   | _ :: _ =>
                       GenerateContent
                         (composition_request (slot w "bg") sel prompt aspectRatio)
                   end]) w))
    /\ (is_Some (imageGallery w) -> is_Some v).
Proof.
  intros Hp Ha Hsel. unfold generate_try. js_simpl. rewrite Hp. cbn [prop]. js_simpl.
  rewrite (bind_normal getSelectedImages _ w sel w)
    by (rewrite (surjective_pairing (getSelectedImages w)), Hsel,
          getSelectedImages_pure; reflexivity).
  js_simpl. rewrite Ha. cbn [prop]. js_simpl.
  destruct sel as [|x sel]; cbn [length Nat.ltb Nat.leb].
  - apply text_to_image_world.
  - apply compose_and_display_world.
Qed.

(** The whole operation in terms of its [try] block. *)
Lemma generateAndDisplayImages_outcome (w : World) d :
  generateBtn w = Some d ->
  generateAndDisplayImages ai w
  = (Normal tt,
     set_generateBtn (Some false)
       match (generate_try ai (try_entry w)).1 with
       | Normal _ => (generate_try ai (try_entry w)).2
       | Throw e => (generate_catch e (generate_try ai (try_entry w)).2).2
       end).
Proof.
  intros Hb. unfold generateAndDisplayImages.
  erewrite bind_normal by (by eapply set_disabled_present).
  erewrite bind_normal by apply setMessage_total.
  fold (try_entry w). unfold try_catch_finally, generate_finally.
  destruct (generate_try_world (try_entry w)) as (c & v & rs & -> & _).
  pose proof (try_entry_fields w) as (_ & _ & _ & _ & Hbtn & _).
  destruct c as [[]|e]; cbn [fst snd].
  - apply (set_disabled_present false _ true). exact Hbtn.
  - pose proof (generate_catch_world e
                  (set_imageGallery v (set_requests rs (try_entry w))))
      as (Heq & Hb' & _).
    destruct (generate_catch e _) as [c4 w4]. cbn [snd] in *.
    injection Heq as ->.
    apply (set_disabled_present false _ true). rewrite Hb'. exact Hbtn.
Qed.

End Generation.

Section Generation_claims.

Variable ai : Service.

Lemma try_entry_slot (w : World) (id : string) : slot (try_entry w) id = slot w id.
Proof.
  unfold slot. by destruct (try_entry_fields w) as (-> & _).
Qed.

Lemma try_entry_selection (w : World) :
  (getSelectedImages (try_entry w)).1 = (getSelectedImages w).1.
Proof.
  destruct (try_entry_fields w) as (Hr & Hc & _). by apply getSelectedImages_ext.
Qed.

(** C3. A submit with nothing selected sends one request, to the
    text-to-image endpoint, carrying the user's prompt as typed, a count of
    3, the chosen aspect ratio and image/jpeg as output type; a submit with
    a non-empty selection sends one request, to the composition endpoint,
    whose parts are one inline image per selected image, in order, followed
    by the composed prompt. *)
Theorem generate_request_routing (w : World) (d : bool)
    (prompt aspectRatio : string) (selectedImages : list ReferenceImage) :
  generateBtn w = Some d ->
  promptInput w = Some prompt ->
  aspectRatioSelect w = Some aspectRatio ->
  (getSelectedImages w).1 = Normal selectedImages ->
  requests (generateAndDisplayImages ai w).2
  = requests w ++
      [match selectedImages with
       | [] =>
           GenerateImages
             {| ir_model := "imagen-4.0-generate-001";
                ir_prompt := prompt;
                ir_numberOfImages := 3;
                ir_aspectRatio := aspectRatio;
                ir_outputMimeType := "image/jpeg" |}
       | _ :: _ =>
           GenerateContent
             {| cr_model := "gemini-2.5-flash-image-preview";
                cr_parts :=
                  map (fun img => InlineDataPart (base64 img) (mimeType img))
                    selectedImages
                  ++ [TextPart (composePrompt (slot w "bg") selectedImages
                                  prompt aspectRatio)];
                cr_responseModalities := [IMAGE; TEXT] |}
       end].
Proof.
  intros Hb Hp Ha Hsel.
  rewrite (generateAndDisplayImages_outcome ai w d Hb).
  destruct (try_entry_fields w) as (_ & _ & Hp' & Ha' & _ & Hreq & _).
  destruct (generate_try_request ai (try_entry w) prompt aspectRatio selectedImages)
    as (c & v & Heq & _).
  { by rewrite Hp'. } { by rewrite Ha'. } { by rewrite try_entry_selection. }
  rewrite Heq, try_entry_slot, Hreq. cbn [fst snd].
  destruct c as [[]|e]; cbn [requests set_generateBtn set_imageGallery set_requests].
  - reflexivity.
  - destruct (generate_catch_world e
                (set_imageGallery v
                   (set_requests
                      (requests w ++
                         [match selectedImages with
                          | [] => GenerateImages (text_request prompt aspectRatio)
                          | _ :: _ =>
                              GenerateContent
                                (composition_request (slot w "bg") selectedImages
                                   prompt aspectRatio)
                          end]) (try_entry w)))) as (_ & _ & -> & _).
    reflexivity.
Qed.

Lemma generate_throw_reported (w : World) (d : bool) (e : Js.Thrown) (w1 : World) :
  generateBtn w = Some d ->
  generate_try ai (try_entry w) = (Throw e, w1) ->
  console (generateAndDisplayImages ai w).2 = console w ++ [e]
  /\ (is_Some (imageGallery w) ->
      imageGallery (generateAndDisplayImages ai w).2
      = Some [Markup (message_html ("Error: " +:+ errorMessage_of e) true)]).
Proof.
  intros Hb Htry. rewrite (generateAndDisplayImages_outcome ai w d Hb).
  rewrite Htry. cbn [fst snd].
  destruct (generate_try_world ai (try_entry w)) as (c & v & rs & Heq & Hv).
  rewrite Htry in Heq. injection Heq as <- ->.
  destruct (try_entry_fields w) as (_ & _ & _ & _ & _ & _ & Hcon & Hgal).
  destruct (generate_catch_world e
              (set_imageGallery v (set_requests rs (try_entry w))))
    as (_ & _ & _ & Hc & Hg).
  cbn [console imageGallery set_generateBtn]. split.
  - rewrite Hc. cbn. by rewrite Hcon.
  - intros Hw. apply Hg. cbn. auto.
Qed.

(** C7 (as amended). Whenever the operation runs (it is the click listener
    of the submit button, so the button exists) it completes normally with
    the button enabled again, whatever happened inside; and when anything is
    thrown inside the try block the thrown value is logged and, the gallery
    being part of the page, the gallery is replaced by the markup
    <div class="message error">Error: MESSAGE</div>, where MESSAGE is the
    message of the thrown value when it is an Error instance, empty or not,
    and the generic text when it is anything else. *)
Theorem generate_catches_and_reenables (w : World) (d : bool) :
  generateBtn w = Some d ->
  (generateAndDisplayImages ai w).1 = Normal tt
  /\ generateBtn (generateAndDisplayImages ai w).2 = Some false
  /\ (forall e w1,
        generate_try ai (try_entry w) = (Throw e, w1) ->
        console (generateAndDisplayImages ai w).2 = console w ++ [e]
        /\ (is_Some (imageGallery w) ->
            imageGallery (generateAndDisplayImages ai w).2
            = Some [Markup ("<div class=" +:+ dquote +:+ "message error" +:+ dquote
                              +:+ ">Error: " +:+ errorMessage_of e +:+ "</div>")]))
  /\ (forall name message, errorMessage_of (Js.ErrorObject name message) = message)
  /\ (forall v, errorMessage_of (Js.NonError v)
                = "Could not load images. Please check the console for details.").
Proof.
  intros Hb. split; [|split; [|split; [|split; reflexivity]]].
  - by rewrite (generateAndDisplayImages_outcome ai w d Hb).
  - by rewrite (generateAndDisplayImages_outcome ai w d Hb).
  - intros e w1 Htry.
    destruct (generate_throw_reported w d e w1 Hb Htry) as [Hcon Hgal].
    split; [exact Hcon|]. intros Hw. rewrite (Hgal Hw). reflexivity.
Qed.






End Generation_claims.

(** ** The theorems at the worked inputs *)

Lemma getSelectedImages_exact_witness :
  (getSelectedImages sample_world).1
  = Normal [sample_image 0 "Qkc="; sample_image 1 "QzE="; sample_image 4 "QzQ="].
Proof.
  rewrite (proj1 (getSelectedImages_exact sample_world true true false true
                    eq_refl eq_refl eq_refl eq_refl)).
  vm_compute. reflexivity.
Defined.

Lemma generate_request_routing_witness :
  requests (generateAndDisplayImages sample_ai empty_world).2
  = [GenerateImages
       {| ir_model := "imagen-4.0-generate-001"; ir_prompt := "P";
          ir_numberOfImages := 3; ir_aspectRatio := "1:1";
          ir_outputMimeType := "image/jpeg" |}].
Proof.
  rewrite (generate_request_routing sample_ai empty_world false "P" "1:1" [])
    by (vm_compute; reflexivity).
  reflexivity.
Defined.


Lemma displayImages_absent_or_empty_witness :
  imageGallery (displayImages None sample_world).2
  = Some [Markup ("<div class=" +:+ dquote +:+ "message " +:+ dquote
                    +:+ ">No images were generated or the response was empty.</div>")].
Proof.
  rewrite (proj1 (displayImages_absent_or_empty sample_world [Markup "previous"] None
                    eq_refl (or_introl eq_refl))).
  reflexivity.
Defined.

Lemma generate_catches_and_reenables_witness :
  generateBtn (generateAndDisplayImages sample_ai empty_world).2 = Some false
  /\ imageGallery (generateAndDisplayImages sample_ai empty_world).2
     = Some [Markup ("<div class=" +:+ dquote +:+ "message error" +:+ dquote
                       +:+ ">Error: quota exceeded</div>")].
Proof.
  destruct (generate_catches_and_reenables sample_ai empty_world false eq_refl)
    as (_ & Hbtn & Hthrown & _).
  split; [exact Hbtn|].
  destruct (Hthrown (Js.ErrorObject "ApiError" "quota exceeded")
              (generate_try sample_ai (try_entry empty_world)).2) as [_ Hgal].
  - vm_compute. reflexivity.
  - apply Hgal. vm_compute. eauto.
Defined.

Lemma displayImages_no_bytes_witness :
  imageGallery (displayImages (Some byteless_results) sample_world).2 = Some [].
Proof.
  rewrite (displayImages_no_bytes sample_world [Markup "previous"] byteless_results).
  - reflexivity.
  - reflexivity.
  - discriminate.
  - repeat constructor.
Defined.

(** ** Where the claims as worded fail *)


(** An Error whose message is empty is shown with that empty message: the
    generic text is not used. *)
Lemma empty_error_message_counterexample :
  imageGallery (generateAndDisplayImages empty_message_ai empty_world).2
  = Some [Markup ("<div class=" +:+ dquote +:+ "message error" +:+ dquote
                    +:+ ">Error: </div>")]
  /\ imageGallery (generateAndDisplayImages empty_message_ai empty_world).2
     <> Some [Markup ("<div class=" +:+ dquote +:+ "message error" +:+ dquote
                        +:+ ">Error: Could not load images. Please check the console for details.</div>")].
Proof.
  split; [vm_compute; reflexivity|]. vm_compute. discriminate.
Qed.

(** With the background alone selected and the appear-only-once sentence
    typed as the prompt, the composed prompt contains that sentence. *)
Lemma background_only_counterexample :
  hasBg_of (Some (sample_image 0 "Qkc=")) [sample_image 0 "Qkc="] = true
  /\ numCharacters_of true [sample_image 0 "Qkc="] = 0
  /\ Js.includes
       (composePrompt (Some (sample_image 0 "Qkc=")) [sample_image 0 "Qkc="]
          "Crucially, ensure each distinct character appears only once in the final image and that no characters are omitted or duplicated."
          "1:1")
       "Crucially, ensure each distinct character appears only once in the final image and that no characters are omitted or duplicated."
     = true.
Proof. repeat split; vm_compute; reflexivity. Qed.

(** The end-to-end scenario: one request, to the composition endpoint, with
    one image part, and a prompt that ends by fixing the ratio to 16:9. *)
Example one_character_submit :
  exists finalPrompt,
    requests (generateAndDisplayImages sample_ai one_character_world).2
    = [GenerateContent
         {| cr_model := "gemini-2.5-flash-image-preview";
            cr_parts := [InlineDataPart (Some "QzE=") "image/png"; TextPart finalPrompt];
            cr_responseModalities := [IMAGE; TEXT] |}]
    /\ Js.endsWith finalPrompt "Finally, the image must have a 16:9 aspect ratio."
       = true
    /\ Js.includes finalPrompt "Combine the 1 character from" = true.
Proof. eexists. repeat split; vm_compute; reflexivity. Qed.

(** A missing checkbox element makes the resolver throw; the operation
    reports it like any other error. *)
Example missing_checkbox_is_reported :
  let w := {| referenceImages := ∅; checkboxes := ∅; promptInput := Some "P";
              aspectRatioSelect := Some "1:1"; generateBtn := Some false;
              imageGallery := Some []; requests := []; console := [] |} in
  generateAndDisplayImages sample_ai w
  = (Normal tt,
     {| referenceImages := ∅; checkboxes := ∅; promptInput := Some "P";
        aspectRatioSelect := Some "1:1"; generateBtn := Some false;
        imageGallery :=
          Some [Markup ("<div class=" +:+ dquote +:+ "message error" +:+ dquote
                          +:+ ">Error: Cannot read properties of null (reading 'checked')</div>")];
        requests := [];
        console :=
          [Js.ErrorObject "TypeError"
             "Cannot read properties of null (reading 'checked')"] |}).
Proof. vm_compute. reflexivity. Qed.

(** * Further properties of the code *)

(** ** Selection resolver: errors, soundness, and what the composer sees *)

Lemma getSelectedImages_for_missing (indices : list nat) :
  forall selected w i,
    i ∈ indices ->
    checkboxes w !! ("checkbox-" +:+ char_id i) = None ->
    getSelectedImages_for indices selected w = (Throw (Js.TypeError_null "checked"), w).
Proof.
  induction indices as [|j rest IH]; intros selected w i Hin Hi.
  - by apply elem_of_nil in Hin.
  - cbn [getSelectedImages_for]. js_simpl.
    destruct (checkboxes w !! ("checkbox-" +:+ char_id j)) as [checked|] eqn:Hj;
      [|reflexivity].
    apply elem_of_cons in Hin as [->|Hin]; [congruence|].
    cbn [prop]. js_simpl.
    destruct checked, (slot w (char_id j)); by apply (IH _ _ i).
Qed.

(** X1. When the checkbox element of any of the four character slots is
    missing from the page, the resolver throws the TypeError of reading
    [checked] on null, whatever the other slots hold, and leaves the page as
    it was. *)
Theorem getSelectedImages_missing_checkbox (w : World) :
  checkboxes w !! "checkbox-char1" = None
  \/ checkboxes w !! "checkbox-char2" = None
  \/ checkboxes w !! "checkbox-char3" = None
  \/ checkboxes w !! "checkbox-char4" = None ->
  getSelectedImages w = (Throw (Js.TypeError_null "checked"), w).
Proof.
  intros H. unfold getSelectedImages. js_simpl.
  change (seq 1 4) with [1; 2; 3; 4].
  destruct H as [H|[H|[H|H]]].
  - apply (getSelectedImages_for_missing _ _ _ 1); [repeat constructor|exact H].
  - apply (getSelectedImages_for_missing _ _ _ 2); [repeat constructor|exact H].
  - apply (getSelectedImages_for_missing _ _ _ 3); [repeat constructor|exact H].
  - apply (getSelectedImages_for_missing _ _ _ 4); [repeat constructor|exact H].
Qed.

Lemma getSelectedImages_missing_checkbox_witness :
  (getSelectedImages (set_checkboxes (delete "checkbox-char3" sample_checkboxes)
                        sample_world)).1
  = Throw (Js.TypeError_null "checked").
Proof.
  rewrite getSelectedImages_missing_checkbox; [reflexivity|].
  right. right. left. vm_compute. reflexivity.
Defined.

Lemma getSelectedImages_for_sound (indices : list nat) :
  forall selected w sel,
    (getSelectedImages_for indices selected w).1 = Normal sel ->
    exists rest,
      sel = selected ++ rest
      /\ length rest <= length indices
      /\ forall r, r ∈ rest -> exists i, i ∈ indices /\ slot w (char_id i) = Some r.
Proof.
  induction indices as [|i more IH]; intros selected w sel.
  - cbn. intros [= <-]. exists []. rewrite app_nil_r. split; [done|].
    split; [done|]. intros r Hr. by apply elem_of_nil in Hr.
  - cbn [getSelectedImages_for]. js_simpl.
    destruct (checkboxes w !! ("checkbox-" +:+ char_id i)) as [checked|];
      [|discriminate].
    cbn [prop]. js_simpl.
    destruct checked, (slot w (char_id i)) as [r0|] eqn:Hslot; intros H;
      apply IH in H as (rest & -> & Hlen & Hsrc).
    2-4: exists rest; split; [done|]; split; [cbn; lia|];
      intros r Hr; destruct (Hsrc r Hr) as (k & Hk & Hsk); exists k;
      split; [set_solver|done].
    exists (r0 :: rest). rewrite <- app_assoc. split; [done|].
    split; [cbn; lia|].
    intros r [->|Hr]%elem_of_cons.
    + exists i. split; [set_solver|done].
    + destruct (Hsrc r Hr) as (k & Hk & Hsk). exists k. split; [set_solver|done].
Qed.

(** X2. Whatever the page, a selection the resolver returns holds at most
    five images and every one of them is the image stored in one of the five
    slots: nothing is invented and nothing is taken from elsewhere. *)
Theorem getSelectedImages_sound (w : World) (sel : list ReferenceImage) :
  (getSelectedImages w).1 = Normal sel ->
  length sel <= 5
  /\ forall r, r ∈ sel ->
       exists id, id ∈ ["bg"; "char1"; "char2"; "char3"; "char4"]
                  /\ slot w id = Some r.
Proof.
  unfold getSelectedImages. js_simpl. intros H.
  apply getSelectedImages_for_sound in H as (rest & -> & Hlen & Hsrc).
  change (length (seq 1 4)) with 4 in Hlen. split.
  - rewrite length_app. destruct (slot w "bg"); cbn; lia.
  - intros r [Hr|Hr]%elem_of_app.
    + exists "bg". split; [set_solver|].
      destruct (slot w "bg") as [b|]; [|by apply elem_of_nil in Hr].
      apply list_elem_of_singleton in Hr. by subst.
    + destruct (Hsrc r Hr) as (i & Hi & Hs).
      change (seq 1 4) with [1; 2; 3; 4] in Hi.
      exists (char_id i). split; [|exact Hs].
      repeat (apply elem_of_cons in Hi as [->|Hi];
              [apply list_elem_of_In; vm_compute; tauto|]).
      by apply elem_of_nil in Hi.
Qed.

Lemma getSelectedImages_sound_witness :
  length [sample_image 0 "Qkc="; sample_image 1 "QzE="; sample_image 4 "QzQ="] <= 5.
Proof.
  apply (getSelectedImages_sound sample_world). vm_compute. reflexivity.
Defined.

(** X3. On a non-empty selection returned by the resolver the composer's
    hasBg says exactly whether a background image is stored, and its
    numCharacters is the number of character images in the selection. *)
Theorem selection_prompt_parameters (w : World) (sel : list ReferenceImage) :
  (getSelectedImages w).1 = Normal sel ->
  sel <> [] ->
  hasBg_of (slot w "bg") sel = bool_decide (is_Some (slot w "bg"))
  /\ exists characters,
       sel = option_list (slot w "bg") ++ characters
       /\ numCharacters_of (hasBg_of (slot w "bg") sel) sel = length characters.
Proof.
  intros Hsel Hne. split; [by apply hasBg_of_selection|].
  rewrite (hasBg_of_selection w sel Hsel Hne).
  unfold getSelectedImages in Hsel. revert Hsel. js_simpl. intros Hsel.
  apply getSelectedImages_for_prefix in Hsel as [rest ->].
  exists rest. unfold numCharacters_of.
  destruct (slot w "bg") as [b|].
  - rewrite bool_decide_eq_true_2 by eauto. split; [done|]. cbn. lia.
  - rewrite bool_decide_eq_false_2 by (by intros [? ?]). done.
Qed.

Lemma selection_prompt_parameters_witness :
  hasBg_of (slot sample_world "bg")
    [sample_image 0 "Qkc="; sample_image 1 "QzE="; sample_image 4 "QzQ="]
  = bool_decide (is_Some (slot sample_world "bg")).
Proof.
  apply (selection_prompt_parameters sample_world).
  - vm_compute. reflexivity.
  - discriminate.
Defined.

(** ** Gallery renderer *)

Lemma displayImages_gallery_indep (gis : option (list GeneratedImage))
    (w1 w2 : World) (g1 g2 : list GalleryNode) :
  imageGallery w1 = Some g1 ->
  imageGallery w2 = Some g2 ->
  imageGallery (displayImages gis w1).2 = imageGallery (displayImages gis w2).2
  /\ displayImages gis w1
     = (Normal tt, set_imageGallery (imageGallery (displayImages gis w2).2) w1).
Proof.
  intros H1 H2. destruct gis as [[|x rest]|].
  - rewrite (displayImages_none_or_empty w1 g1), (displayImages_none_or_empty w2 g2);
      auto.
  - by rewrite (displayImages_nonempty w1 g1), (displayImages_nonempty w2 g2).
  - rewrite (displayImages_none_or_empty w1 g1), (displayImages_none_or_empty w2 g2);
      auto.
Qed.

(** X6. Rendering replaces the gallery: with the gallery on the page, the
    renderer never throws and what the gallery holds afterwards depends on
    the result list only, not on what it held before; the rest of the page
    is untouched. *)
Theorem displayImages_replaces (gis : option (list GeneratedImage))
    (w1 w2 : World) (g1 g2 : list GalleryNode) :
  imageGallery w1 = Some g1 ->
  imageGallery w2 = Some g2 ->
  imageGallery (displayImages gis w1).2 = imageGallery (displayImages gis w2).2
  /\ displayImages gis w1
     = (Normal tt, set_imageGallery (imageGallery (displayImages gis w2).2) w1).
Proof.
  intros H1 H2.
  assert (Hboth : forall w g, imageGallery w = Some g ->
            exists v, displayImages gis w = (Normal tt, set_imageGallery (Some v) w)
                      /\ forall w' g', imageGallery w' = Some g' ->
                            imageGallery (displayImages gis w').2 = Some v).
  { intros w g Hg. destruct gis as [[|x rest]|]; eexists; split;
      try (by apply (displayImages_none_or_empty w g); auto);
      try (by apply (displayImages_nonempty w g));
      intros w' g' Hg';
      first [by rewrite (displayImages_none_or_empty w' g') by auto
            |by rewrite (displayImages_nonempty w' g')]. }
  destruct (Hboth w1 g1 H1) as (v & Hrun & Hany).
  rewrite Hrun, (Hany w2 g2 H2). split; reflexivity.
Qed.

Lemma displayImages_replaces_witness :
  imageGallery (displayImages (Some sample_results) sample_world).2
  = imageGallery (displayImages (Some sample_results) one_character_world).2.
Proof.
  apply (displayImages_replaces (Some sample_results) sample_world one_character_world
           [Markup "previous"] []); reflexivity.
Defined.

Lemma length_omap_imap {A B} (P : A -> bool) (l : list A) :
  forall f : nat -> A -> option B,
    (forall i x, is_Some (f i x) <-> P x = true) ->
    length (omap id (imap f l)) = length (List.filter P l).
Proof.
  induction l as [|x rest IH]; intros f Hf; [reflexivity|].
  rewrite imap_cons. cbn [List.filter].
  pose proof (Hf 0 x) as H0.
  destruct (f 0 x) as [y|], (P x); simpl.
  - f_equal. apply IH. intros i z. apply (Hf (S i)).
  - destruct H0 as [H0 _]. discriminate H0. eauto.
  - destruct H0 as [_ H0]. destruct H0; done.
  - apply IH. intros i z. apply (Hf (S i)).
Qed.

Lemma rendered_is_Some i x : is_Some (rendered i x) <-> carries_bytes x = true.
Proof.
  unfold rendered, carries_bytes, Js.truthy.
  destruct (image_bytes x) as [[|c r]|]; split; intros H; try done; eauto;
    by destruct H.
Qed.

(** X7. For a non-empty result list the gallery ends up holding gallery
    items only, one for each entry that carries bytes, never more than the
    list has entries. *)
Theorem displayImages_item_count (w : World) (g : list GalleryNode)
    (gis : list GeneratedImage) :
  imageGallery w = Some g ->
  gis <> [] ->
  exists items : list GalleryItem,
    imageGallery (displayImages (Some gis) w).2 = Some (map Item items)
    /\ length items = length (List.filter carries_bytes gis)
    /\ length items <= length gis.
Proof.
  intros Hg Hne. destruct gis as [|x rest]; [done|].
  rewrite (displayImages_nonempty w g) by assumption.
  eexists. split; [reflexivity|].
  assert (Hlen : length (omap id (imap (fun i y => rendered i y) (x :: rest)))
                 = length (List.filter carries_bytes (x :: rest))).
  { apply length_omap_imap. intros i y. apply rendered_is_Some. }
  split; [exact Hlen|]. rewrite Hlen. apply List.filter_length_le.
Qed.

Lemma displayImages_item_count_witness :
  exists items : list GalleryItem,
    imageGallery (displayImages (Some sample_results) sample_world).2
    = Some (map Item items)
    /\ length items = 2.
Proof.
  destruct (displayImages_item_count sample_world [Markup "previous"] sample_results
              eq_refl) as (items & Hg & Hlen & _); [discriminate|].
  exists items. split; [exact Hg|]. rewrite Hlen. reflexivity.
Defined.

Lemma rendered_source (position : nat) (x : GeneratedImage) :
  img_src <$> rendered position x = expected_source x.
Proof.
  unfold rendered, expected_source, image_bytes, gallery_item, mimeType_of.
  destruct x as [[[[[|c r]|] [[|m t]|]]|]]; reflexivity.
Qed.

Lemma rendered_href_items (l : list GeneratedImage) :
  forall f : nat -> GeneratedImage -> option GalleryItem,
    (forall i x it, f i x = Some it -> btn_href it = img_src it) ->
    Forall (fun it => btn_href it = img_src it) (omap id (imap f l)).
Proof.
  induction l as [|x rest IH]; intros f Hf; [constructor|].
  rewrite imap_cons. destruct (f 0 x) as [it|] eqn:Hfx; simpl.
  - constructor; [by eapply Hf|]. apply IH. intros i y. apply (Hf (S i)).
  - apply IH. intros i y. apply (Hf (S i)).
Qed.

Lemma omap_cons_eq {A B} (f : A -> option B) (x : A) (l : list A) :
  omap f (x :: l) = match f x with Some y => y :: omap f l | None => omap f l end.
Proof. reflexivity. Qed.

Lemma omap_imap_const {A B} (g : A -> option B) (l : list A) :
  omap id (imap (fun _ y => g y) l) = omap g l.
Proof.
  induction l as [|y l IH]; [reflexivity|].
  rewrite imap_cons.
  change ((fun (_ : nat) (z : A) => g z) ∘ S) with (fun (_ : nat) (z : A) => g z).
  rewrite !omap_cons_eq, IH. reflexivity.
Qed.

(** X8. The images shown are, in order, the data URLs
    data:<MIME type>;base64,<bytes> of the entries that carry bytes, the MIME
    type being image/jpeg when the entry has none or an empty one, and each
    download link points at the very URL its image shows. *)
Theorem displayImages_sources (w : World) (g : list GalleryNode)
    (gis : list GeneratedImage) :
  imageGallery w = Some g ->
  exists nodes : list GalleryNode,
    imageGallery (displayImages (Some gis) w).2 = Some nodes
    /\ map img_src (gallery_items nodes) = omap expected_source gis
    /\ Forall (fun it => btn_href it = img_src it) (gallery_items nodes).
Proof.
  intros Hg. destruct gis as [|x rest].
  - rewrite (displayImages_none_or_empty w g) by auto.
    eexists. split; [reflexivity|]. split; [reflexivity|constructor].
  - rewrite (displayImages_nonempty w g) by assumption.
    eexists. split; [reflexivity|]. rewrite gallery_items_of_items. split.
    + rewrite map_omap_imap.
      rewrite (imap_ext _ (fun _ y => expected_source y) (x :: rest))
        by (intros; apply rendered_source).
      apply omap_imap_const.
    + apply rendered_href_items. intros i y it. unfold rendered.
      destruct (image_bytes y) as [[|c r]|]; try discriminate.
      by intros [= <-].
Qed.

Lemma displayImages_sources_witness :
  exists nodes : list GalleryNode,
    imageGallery (displayImages (Some mimeless_results) sample_world).2 = Some nodes
    /\ map img_src (gallery_items nodes)
       = ["data:image/png;base64,QUJD"; "data:image/jpeg;base64,REVG";
          "data:image/jpeg;base64,R0hJ"].
Proof.
  destruct (displayImages_sources sample_world [Markup "previous"] mimeless_results
              eq_refl) as (nodes & Hg & Hsrc & _).
  exists nodes. split; [exact Hg|]. rewrite Hsrc. vm_compute. reflexivity.
Defined.

Lemma has_char_append (c : ascii) (a b : string) :
  has_char c (a +:+ b) = has_char c a || has_char c b.
Proof.
  induction a as [|x a IH]; [reflexivity|].
  rewrite append_cons. cbn [has_char]. by rewrite IH, orb_assoc.
Qed.

Lemma split_go_pieces (c : ascii) (s : string) :
  forall cur, has_char c cur = false ->
    Forall (fun piece => has_char c piece = false) (Js.split_go c cur s).
Proof.
  induction s as [|a s IH]; intros cur Hcur; cbn [Js.split_go].
  - by constructor.
  - destruct (Ascii.eqb a c) eqn:Hac.
    + constructor; [exact Hcur|]. by apply IH.
    + apply IH. rewrite has_char_append, Hcur. cbn [has_char].
      by rewrite Hac.
Qed.

(** X9. Whatever the MIME type, the extension put in a download name is
    never empty and never contains a slash. *)
Theorem fileExtension_of_wellformed (mimeType : string) :
  fileExtension_of mimeType <> "" /\ has_char "/" (fileExtension_of mimeType) = false.
Proof.
  unfold fileExtension_of.
  pose proof (split_go_pieces "/" mimeType "" eq_refl) as Hall.
  fold (Js.split "/" mimeType) in Hall.
  destruct (Js.split "/" mimeType !! 1) as [[|c r]|] eqn:Hl; cbn [Js.or_else];
    try (split; [discriminate|reflexivity]).
  split; [discriminate|].
  rewrite Forall_lookup in Hall. exact (Hall _ _ Hl).
Qed.

(** ** The generation operation: frame, failures and successes *)

Lemma generate_catch_fields (e : Js.Thrown) (w : World) :
  referenceImages (generate_catch e w).2 = referenceImages w
  /\ checkboxes (generate_catch e w).2 = checkboxes w
  /\ promptInput (generate_catch e w).2 = promptInput w
  /\ aspectRatioSelect (generate_catch e w).2 = aspectRatioSelect w.
Proof.
  unfold generate_catch, setMessage. js_simpl. cbn [imageGallery set_console].
  by destruct (imageGallery w).
Qed.

Section Generation_extras.

Variable ai : Service.

Lemma generate_try_requests_bound (w : World) :
  exists c v rs,
    generate_try ai w = (c, set_imageGallery v (set_requests (requests w ++ rs) w))
    /\ length rs <= 1.
Proof.
  assert (Hsame : forall c : Completion unit,
            exists c' v rs,
              (c, w) = (c', set_imageGallery v (set_requests (requests w ++ rs) w))
              /\ length rs <= 1).
  { intros c. exists c, (imageGallery w), []. rewrite app_nil_r, world_eta.
    split; [done|cbn; lia]. }
  unfold generate_try. js_simpl.
  destruct (promptInput w) as [prompt|]; cbn [prop]; [|apply Hsame].
  js_simpl.
  destruct (getSelectedImages w) as [[sel|e] w'] eqn:Hsel;
    pose proof (getSelectedImages_pure w) as Hw; rewrite Hsel in Hw;
    cbn [snd] in Hw; subst w'.
  2:{ erewrite bind_throw by eassumption. apply Hsame. }
  erewrite bind_normal by eassumption. js_simpl.
  destruct (aspectRatioSelect w) as [ar|]; cbn [prop]; [|apply Hsame].
  js_simpl.
  destruct (0 <? length sel).
  - destruct (compose_and_display_world ai prompt ar sel w) as (c & v & -> & _).
    eexists c, v, [_]. split; [done|cbn; lia].
  - destruct (text_to_image_world ai prompt ar w) as (c & v & -> & _).
    eexists c, v, [_]. split; [done|cbn; lia].
Qed.

Lemma generate_frame (w : World) (d : bool) :
  generateBtn w = Some d ->
  referenceImages (generateAndDisplayImages ai w).2 = referenceImages w
  /\ checkboxes (generateAndDisplayImages ai w).2 = checkboxes w
  /\ promptInput (generateAndDisplayImages ai w).2 = promptInput w
  /\ aspectRatioSelect (generateAndDisplayImages ai w).2 = aspectRatioSelect w
  /\ exists rs, requests (generateAndDisplayImages ai w).2 = requests w ++ rs
                /\ length rs <= 1.
Proof.
  intros Hb. rewrite (generateAndDisplayImages_outcome ai w d Hb).
  destruct (try_entry_fields w) as (Hr & Hc & Hp & Ha & _ & Hreq & _).
  destruct (generate_try_requests_bound (try_entry w)) as (c & v & rs & -> & Hlen).
  cbn [fst snd]. destruct c as [[]|e].
  - cbn. rewrite Hr, Hc, Hp, Ha, Hreq. eauto 10.
  - set (w3 := set_imageGallery v _).
    destruct (generate_catch_fields e w3) as (Hr' & Hc' & Hp' & Ha').
    destruct (generate_catch_world e w3) as (_ & _ & Hreq' & _).
    cbn [referenceImages checkboxes promptInput aspectRatioSelect requests
         set_generateBtn].
    rewrite Hr', Hc', Hp', Ha', Hreq'. cbn. rewrite Hr, Hc, Hp, Ha, Hreq. eauto 10.
Qed.

(** X10. A submit never changes the stored reference images, the
    checkboxes, the prompt or the chosen aspect ratio, whatever the service
    answers, and it sends at most one request. *)
Theorem generate_leaves_inputs (w : World) (d : bool) :
  generateBtn w = Some d ->
  referenceImages (generateAndDisplayImages ai w).2 = referenceImages w
  /\ checkboxes (generateAndDisplayImages ai w).2 = checkboxes w
  /\ promptInput (generateAndDisplayImages ai w).2 = promptInput w
  /\ aspectRatioSelect (generateAndDisplayImages ai w).2 = aspectRatioSelect w
  /\ exists rs, requests (generateAndDisplayImages ai w).2 = requests w ++ rs
                /\ length rs <= 1.
Proof.
  intros Hb.
  destruct (try_entry_fields w) as (Hr & Hc & Hp & Ha & _ & Hreq & _).
  destruct (generate_try_requests_bound (try_entry w)) as (c & v & rs & Htry & Hlen).
  rewrite (generateAndDisplayImages_outcome ai w d Hb), Htry. cbn [fst snd].
  destruct c as [[]|e].
  - cbn. rewrite Hr, Hc, Hp, Ha, Hreq. eauto 10.
  - set (w3 := set_imageGallery v _).
    destruct (generate_catch_fields e w3) as (Hr' & Hc' & Hp' & Ha').
    destruct (generate_catch_world e w3) as (_ & _ & Hreq' & _).
    cbn [referenceImages checkboxes promptInput aspectRatioSelect requests
         set_generateBtn].
    rewrite Hr', Hc', Hp', Ha', Hreq'. cbn. rewrite Hr, Hc, Hp, Ha, Hreq. eauto 10.
Qed.

Lemma generate_try_prompt_missing (w : World) :
  promptInput w = None ->
  generate_try ai w = (Throw (Js.TypeError_null "value"), w).
Proof. intros Hp. unfold generate_try. js_simpl. by rewrite Hp. Qed.

Lemma generate_try_checkbox_missing (w : World) (prompt : string) (i : nat) :
  promptInput w = Some prompt ->
  i ∈ [1; 2; 3; 4] ->
  checkboxes w !! ("checkbox-" +:+ char_id i) = None ->
  generate_try ai w = (Throw (Js.TypeError_null "checked"), w).
Proof.
  intros Hp Hi Hbox. unfold generate_try. js_simpl. rewrite Hp. cbn [prop]. js_simpl.
  erewrite bind_throw; [reflexivity|].
  unfold getSelectedImages. js_simpl. change (seq 1 4) with [1; 2; 3; 4].
  by apply (getSelectedImages_for_missing _ _ _ i).
Qed.

Lemma generate_try_aspect_missing (w : World) (prompt : string) :
  promptInput w = Some prompt ->
  Forall (fun j => is_Some (checkboxes w !! ("checkbox-" +:+ char_id j))) [1; 2; 3; 4] ->
  aspectRatioSelect w = None ->
  generate_try ai w = (Throw (Js.TypeError_null "value"), w).
Proof.
  intros Hp Hboxes Ha. unfold generate_try. js_simpl. rewrite Hp. cbn [prop]. js_simpl.
  erewrite bind_normal.
  2:{ unfold getSelectedImages. js_simpl. change (seq 1 4) with [1; 2; 3; 4].
      by apply getSelectedImages_for_spec. }
  js_simpl. by rewrite Ha.
Qed.

(** A throw at the entry of the try block, before any request. *)
Lemma generate_early_throw (w : World) (d : bool) (g : list GalleryNode)
    (e : Js.Thrown) :
  generateBtn w = Some d ->
  imageGallery w = Some g ->
  generate_try ai (try_entry w) = (Throw e, try_entry w) ->
  requests (generateAndDisplayImages ai w).2 = requests w
  /\ console (generateAndDisplayImages ai w).2 = console w ++ [e]
  /\ imageGallery (generateAndDisplayImages ai w).2
     = Some [Markup (message_html ("Error: " +:+ errorMessage_of e) true)].
Proof.
  intros Hb Hg Htry.
  destruct (try_entry_fields w) as (_ & _ & _ & _ & _ & Hreq & _).
  destruct (generate_throw_reported ai w d _ _ Hb Htry) as [Hcon Hgal].
  split; [|split; [exact Hcon|apply Hgal; eauto]].
  rewrite (generateAndDisplayImages_outcome ai w d Hb), Htry. cbn [fst snd].
  destruct (generate_catch_world e (try_entry w)) as (_ & _ & Hreq' & _).
  cbn [requests set_generateBtn]. by rewrite Hreq', Hreq.
Qed.

(** X11. When the prompt field is missing from the page, a submit sends no
    request: the TypeError of reading [value] on null is logged and shown in
    the gallery as the error message.  The same happens, with [checked],
    when the prompt field is there and one of the four checkboxes is
    missing, and, with [value] again, when the prompt field and the
    checkboxes are there and the aspect-ratio selector is missing. *)
Theorem generate_input_missing (w : World) (d : bool) (g : list GalleryNode) :
  generateBtn w = Some d ->
  imageGallery w = Some g ->
  let reported (name : string) :=
    requests (generateAndDisplayImages ai w).2 = requests w
    /\ console (generateAndDisplayImages ai w).2
       = console w ++
           [Js.ErrorObject "TypeError"
              ("Cannot read properties of null (reading '" +:+ name +:+ "')")]
    /\ imageGallery (generateAndDisplayImages ai w).2
       = Some [Markup ("<div class=" +:+ dquote +:+ "message error" +:+ dquote
                         +:+ ">Error: Cannot read properties of null (reading '"
                         +:+ name +:+ "')</div>")] in
  (promptInput w = None -> reported "value")
  /\ (is_Some (promptInput w) ->
      checkboxes w !! "checkbox-char1" = None
      \/ checkboxes w !! "checkbox-char2" = None
      \/ checkboxes w !! "checkbox-char3" = None
      \/ checkboxes w !! "checkbox-char4" = None ->
      reported "checked")
  /\ (is_Some (promptInput w) ->
      is_Some (checkboxes w !! "checkbox-char1") ->
      is_Some (checkboxes w !! "checkbox-char2") ->
      is_Some (checkboxes w !! "checkbox-char3") ->
      is_Some (checkboxes w !! "checkbox-char4") ->
      aspectRatioSelect w = None ->
      reported "value").
Proof.
  intros Hb Hg reported.
  destruct (try_entry_fields w) as (_ & Hc & Hp & Ha & _).
  split; [|split].
  - intros Hnone.
    apply (generate_early_throw w d g (Js.TypeError_null "value") Hb Hg).
    apply generate_try_prompt_missing. by rewrite Hp.
  - intros [prompt Hprompt] Hmissing.
    apply (generate_early_throw w d g (Js.TypeError_null "checked") Hb Hg).
    destruct Hmissing as [H|[H|[H|H]]].
    + apply (generate_try_checkbox_missing _ prompt 1);
        [by rewrite Hp | repeat constructor | by rewrite Hc].
    + apply (generate_try_checkbox_missing _ prompt 2);
        [by rewrite Hp | repeat constructor | by rewrite Hc].
    + apply (generate_try_checkbox_missing _ prompt 3);
        [by rewrite Hp | repeat constructor | by rewrite Hc].
    + apply (generate_try_checkbox_missing _ prompt 4);
        [by rewrite Hp | repeat constructor | by rewrite Hc].
  - intros [prompt Hprompt] H1 H2 H3 H4 Hnone.
    apply (generate_early_throw w d g (Js.TypeError_null "value") Hb Hg).
    apply (generate_try_aspect_missing _ prompt); [by rewrite Hp| |by rewrite Ha].
    rewrite Hc. repeat constructor; assumption.
Qed.

Lemma generate_try_resolved_images (w : World) prompt aspectRatio response :
  promptInput w = Some prompt ->
  aspectRatioSelect w = Some aspectRatio ->
  (getSelectedImages w).1 = Normal [] ->
  generateImages ai (text_request prompt aspectRatio) = inr response ->
  generate_try ai w
  = displayImages (generatedImages response)
      (set_requests
         (requests w ++ [GenerateImages (text_request prompt aspectRatio)]) w).
Proof.
  intros Hp Ha Hsel Hai. unfold generate_try. js_simpl. rewrite Hp. cbn [prop].
  js_simpl.
  rewrite (bind_normal getSelectedImages _ w [] w)
    by (rewrite (surjective_pairing (getSelectedImages w)), Hsel,
          getSelectedImages_pure; reflexivity).
  js_simpl. rewrite Ha. cbn [prop length Nat.ltb Nat.leb]. js_simpl.
  unfold text_to_image, bind at 1, await_generateImages.
  fold (text_request prompt aspectRatio). by rewrite Hai.
Qed.

Lemma generate_try_resolved_content (w : World) prompt aspectRatio sel response :
  promptInput w = Some prompt ->
  aspectRatioSelect w = Some aspectRatio ->
  (getSelectedImages w).1 = Normal sel ->
  sel <> [] ->
  generateContent ai (composition_request (slot w "bg") sel prompt aspectRatio)
  = inr response ->
  generate_try ai w
  = after_generateContent response
      (set_requests
         (requests w ++
            [GenerateContent
               (composition_request (slot w "bg") sel prompt aspectRatio)]) w).
Proof.
  intros Hp Ha Hsel Hne Hai. unfold generate_try. js_simpl. rewrite Hp. cbn [prop].
  js_simpl.
  rewrite (bind_normal getSelectedImages _ w sel w)
    by (rewrite (surjective_pairing (getSelectedImages w)), Hsel,
          getSelectedImages_pure; reflexivity).
  js_simpl. rewrite Ha. cbn [prop]. js_simpl.
  destruct sel as [|x sel]; [done|]. cbn [length Nat.ltb Nat.leb].
  unfold compose_and_display. js_simpl. unfold bind at 1, await_generateContent.
  fold (composition_request (slot w "bg") (x :: sel) prompt aspectRatio).
  by rewrite Hai.
Qed.

End Generation_extras.

Section Generation_outcomes.

Variable ai : Service.

(** X12. Text-to-image mode, call resolved: the list of generated images of
    the response goes to the renderer as it is, nothing is logged on the
    console, and the button is enabled again. *)
Theorem generate_text_success (w : World) (d : bool)
    (prompt aspectRatio : string) (response : GenerateImagesResponse) :
  generateBtn w = Some d ->
  promptInput w = Some prompt ->
  aspectRatioSelect w = Some aspectRatio ->
  (getSelectedImages w).1 = Normal [] ->
  generateImages ai
    {| ir_model := "imagen-4.0-generate-001"; ir_prompt := prompt;
       ir_numberOfImages := 3; ir_aspectRatio := aspectRatio;
       ir_outputMimeType := "image/jpeg" |} = inr response ->
  generateAndDisplayImages ai w
  = (Normal tt,
     set_generateBtn (Some false)
       (displayImages (generatedImages response)
          (set_requests
             (requests w ++ [GenerateImages (text_request prompt aspectRatio)])
             (try_entry w))).2)
  /\ console (generateAndDisplayImages ai w).2 = console w
  /\ (is_Some (imageGallery w) ->
      imageGallery (generateAndDisplayImages ai w).2
      = imageGallery (displayImages (generatedImages response) w).2).
Proof.
  intros Hb Hp Ha Hsel Hai.
  destruct (try_entry_fields w) as (_ & _ & Hp' & Ha' & _ & Hreq & Hcon & _).
  assert (Htry := generate_try_resolved_images ai (try_entry w) prompt aspectRatio
                    response).
  rewrite Hp', Ha', try_entry_selection, Hreq in Htry.
  specialize (Htry Hp Ha Hsel Hai).
  rewrite (generateAndDisplayImages_outcome ai w d Hb), Htry.
  set (wx := set_requests _ (try_entry w)).
  destruct (displayImages_world (generatedImages response) wx) as (v & Hd & _).
  rewrite Hd. cbn [fst snd console set_generateBtn set_imageGallery imageGallery].
  split; [reflexivity|]. split; [exact Hcon|].
  intros [g Hg].
  destruct (try_entry_fields w) as (_ & _ & _ & _ & _ & _ & _ & Hpres).
  destruct (Hpres (ex_intro _ g Hg)) as [g' Hg'].
  destruct (displayImages_gallery_indep (generatedImages response) wx w g' g)
    as [Hsame _]; [exact Hg'|exact Hg|].
  rewrite <- Hsame, Hd. reflexivity.
Qed.

(** X13. Composition mode, call resolved with at least one part that has
    inline data: the renderer receives one image per such part, in order,
    with the data and MIME type of the part; parts without inline data are
    dropped, no error is raised or logged. *)
Theorem generate_composition_success (w : World) (d : bool)
    (prompt aspectRatio : string) (selectedImages : list ReferenceImage)
    (response : GenerateContentResponse) (c : Candidate) (cs : list Candidate)
    (ct : Content) (ps : list Part) :
  generateBtn w = Some d ->
  promptInput w = Some prompt ->
  aspectRatioSelect w = Some aspectRatio ->
  (getSelectedImages w).1 = Normal selectedImages ->
  selectedImages <> [] ->
  generateContent ai
    (composition_request (slot w "bg") selectedImages prompt aspectRatio)
  = inr response ->
  candidates response = Some (c :: cs) ->
  content c = Some ct ->
  parts ct = Some ps ->
  List.filter has_inlineData ps <> [] ->
  generateAndDisplayImages ai w
  = (Normal tt,
     set_generateBtn (Some false)
       (displayImages
          (Some (map (fun p => {| image := Some {| imageBytes := inlineData p ≫= data;
                                                   image_mimeType :=
                                                     inlineData p ≫= blob_mimeType |} |})
                   (List.filter has_inlineData ps)))
          (set_requests
             (requests w ++
                [GenerateContent
                   (composition_request (slot w "bg") selectedImages prompt
                      aspectRatio)])
             (try_entry w))).2)
  /\ console (generateAndDisplayImages ai w).2 = console w
  /\ (is_Some (imageGallery w) ->
      imageGallery (generateAndDisplayImages ai w).2
      = imageGallery
          (displayImages
             (Some (map (fun p => {| image := Some {| imageBytes :=
                                                        inlineData p ≫= data;
                                                      image_mimeType :=
                                                        inlineData p ≫= blob_mimeType |} |})
                      (List.filter has_inlineData ps))) w).2).
Proof.
  intros Hb Hp Ha Hsel Hne Hai Hc Hct Hps Hinl.
  destruct (try_entry_fields w) as (_ & _ & Hp' & Ha' & _ & Hreq & Hcon & _).
  assert (Htry := generate_try_resolved_content ai (try_entry w) prompt aspectRatio
                    selectedImages response).
  rewrite Hp', Ha', try_entry_selection, try_entry_slot, Hreq in Htry.
  specialize (Htry Hp Ha Hsel Hne Hai).
  rewrite (generateAndDisplayImages_outcome ai w d Hb), Htry.
  unfold after_generateContent, response_parts.
  rewrite Hc. cbn [head]. rewrite Hct, Hps. js_simpl. cbn [option_map].
  destruct (List.filter has_inlineData ps) as [|p rest] eqn:Hf; [done|].
  fold image_of_part.
  set (wx := set_requests _ (try_entry w)).
  destruct (displayImages_world (Some (map image_of_part (p :: rest))) wx)
    as (v & Hd & _).
  rewrite Hd. cbn [fst snd console set_generateBtn set_imageGallery imageGallery].
  split; [reflexivity|]. split; [exact Hcon|].
  intros [g Hg].
  destruct (try_entry_fields w) as (_ & _ & _ & _ & _ & _ & _ & Hpres).
  destruct (Hpres (ex_intro _ g Hg)) as [g' Hg'].
  destruct (displayImages_gallery_indep (Some (map image_of_part (p :: rest)))
              wx w g' g) as [Hsame _]; [exact Hg'|exact Hg|].
  rewrite <- Hsame, Hd. reflexivity.
Qed.

(** X14. Composition mode, call resolved with a first candidate whose
    content has no parts list: the unguarded [.parts.filter] throws, and what
    the gallery shows is the markup <div class="message error">Error: Cannot
    read properties of undefined (reading 'filter')</div>, not the no-image
    text. *)
Theorem generate_content_without_parts (w : World) (d : bool) (g : list GalleryNode)
    (prompt aspectRatio : string) (selectedImages : list ReferenceImage)
    (response : GenerateContentResponse) (c : Candidate) (cs : list Candidate)
    (ct : Content) :
  generateBtn w = Some d ->
  imageGallery w = Some g ->
  promptInput w = Some prompt ->
  aspectRatioSelect w = Some aspectRatio ->
  (getSelectedImages w).1 = Normal selectedImages ->
  selectedImages <> [] ->
  generateContent ai
    (composition_request (slot w "bg") selectedImages prompt aspectRatio)
  = inr response ->
  candidates response = Some (c :: cs) ->
  content c = Some ct ->
  parts ct = None ->
  console (generateAndDisplayImages ai w).2
  = console w ++
      [Js.ErrorObject "TypeError"
         "Cannot read properties of undefined (reading 'filter')"]
  /\ imageGallery (generateAndDisplayImages ai w).2
     = Some [Markup ("<div class=" +:+ dquote +:+ "message error" +:+ dquote
                       +:+ ">Error: Cannot read properties of undefined (reading 'filter')</div>")].
Proof.
  intros Hb Hg Hp Ha Hsel Hne Hai Hc Hct Hps.
  destruct (try_entry_fields w) as (_ & _ & Hp' & Ha' & _ & Hreq & Hcon & _).
  assert (Htry := generate_try_resolved_content ai (try_entry w) prompt aspectRatio
                    selectedImages response).
  rewrite Hp', Ha', try_entry_selection, try_entry_slot, Hreq in Htry.
  specialize (Htry Hp Ha Hsel Hne Hai).
  unfold after_generateContent, response_parts in Htry.
  rewrite Hc in Htry. cbn [head] in Htry. rewrite Hct, Hps in Htry.
  destruct (generate_throw_reported ai w d _ _ Hb Htry) as [Hcon' Hgal].
  split; [exact Hcon'|]. rewrite Hgal by eauto. reflexivity.
Qed.

(** X15. Composition mode, call resolved with no candidates, or with a
    first candidate without content: the operation raises the no-image error
    with the fixed fallback text, and the gallery shows the markup
    <div class="message error">Error: No image was generated by the
    model.</div>. *)
Theorem generate_no_content (w : World) (d : bool) (g : list GalleryNode)
    (prompt aspectRatio : string) (selectedImages : list ReferenceImage)
    (response : GenerateContentResponse) :
  generateBtn w = Some d ->
  imageGallery w = Some g ->
  promptInput w = Some prompt ->
  aspectRatioSelect w = Some aspectRatio ->
  (getSelectedImages w).1 = Normal selectedImages ->
  selectedImages <> [] ->
  generateContent ai
    (composition_request (slot w "bg") selectedImages prompt aspectRatio)
  = inr response ->
  candidates response = None
  \/ candidates response = Some []
  \/ (exists c cs, candidates response = Some (c :: cs) /\ content c = None) ->
  console (generateAndDisplayImages ai w).2
  = console w ++ [Js.ErrorObject "Error" "No image was generated by the model."]
  /\ imageGallery (generateAndDisplayImages ai w).2
     = Some [Markup ("<div class=" +:+ dquote +:+ "message error" +:+ dquote
                       +:+ ">Error: No image was generated by the model.</div>")].
Proof.
  intros Hb Hg Hp Ha Hsel Hne Hai Hresp.
  destruct (try_entry_fields w) as (_ & _ & Hp' & Ha' & _ & Hreq & Hcon & _).
  assert (Htry := generate_try_resolved_content ai (try_entry w) prompt aspectRatio
                    selectedImages response).
  rewrite Hp', Ha', try_entry_selection, try_entry_slot, Hreq in Htry.
  specialize (Htry Hp Ha Hsel Hne Hai).
  assert (Hthrow :
    generate_try ai (try_entry w)
    = (Throw (Js.ErrorObject "Error" "No image was generated by the model."),
       set_requests
         (requests w ++
            [GenerateContent
               (composition_request (slot w "bg") selectedImages prompt aspectRatio)])
         (try_entry w))).
  { rewrite Htry. unfold after_generateContent, response_parts.
    destruct Hresp as [->|[->|(c & cs & -> & Hc)]]; cbn [head]; rewrite ?Hc;
      reflexivity. }
  destruct (generate_throw_reported ai w d _ _ Hb Hthrow) as [Hcon' Hgal].
  split; [exact Hcon'|]. rewrite Hgal by eauto. reflexivity.
Qed.

End Generation_outcomes.

(** ** The upload boxes *)

Lemma slot_insert_eq (w : World) (id : string) (v : option ReferenceImage) :
  slot (set_referenceImages (<[id := v]> (referenceImages w)) w) id = v.
Proof. unfold slot. cbn. by rewrite lookup_insert_eq. Qed.

Lemma slot_insert_ne (w : World) (id id' : string) (v : option ReferenceImage) :
  id <> id' ->
  slot (set_referenceImages (<[id := v]> (referenceImages w)) w) id' = slot w id'.
Proof. intros Hne. unfold slot. cbn. by rewrite lookup_insert_ne. Qed.

Ltac page_simpl :=
  cbn [world previews fileInputs closest_wrapper has_image next_oid
       set_world set_previews set_fileInputs set_has_image set_next_oid
       referenceImages checkboxes promptInput aspectRatioSelect generateBtn
       imageGallery requests console set_referenceImages set_checkboxes
       fst snd] in *.

(** [handleRemoveImage] field by field. *)
Lemma handleRemoveImage_unfold (id : string) (p : Page) :
  handleRemoveImage id p
  = let w1 := set_referenceImages (<[id := None]> (referenceImages (world p)))
                (world p) in
    let inputs :=
      match fileInputs p !! ("file-input-" +:+ id) with
      | Some _ => <["file-input-" +:+ id := ""]> (fileInputs p)
      | None => fileInputs p
      end in
    match previews p !! ("preview-" +:+ id) with
    | None =>
        (Throw (Js.TypeError_null "closest"),
         {| world := w1; previews := previews p; fileInputs := inputs;
            closest_wrapper := closest_wrapper p; has_image := has_image p;
            next_oid := next_oid p |})
    | Some _ =>
        (Normal tt,
         {| world :=
              if String.prefix "char" id then
                match checkboxes (world p) !! ("checkbox-" +:+ id) with
                | Some _ =>
                    set_checkboxes
                      (<["checkbox-" +:+ id := false]> (checkboxes (world p))) w1
                | None => w1
                end
              else w1;
            previews := <["preview-" +:+ id := ""]> (previews p);
            fileInputs := inputs;
            closest_wrapper := closest_wrapper p;
            has_image :=
              match closest_wrapper p !! ("preview-" +:+ id) with
              | Some wrapper => has_image p ∖ {[wrapper]}
              | None => has_image p
              end;
            next_oid := next_oid p |})
    end.
Proof.
  unfold handleRemoveImage. page_simpl.
  destruct (previews p !! ("preview-" +:+ id)); page_simpl;
    destruct (fileInputs p !! ("file-input-" +:+ id)); page_simpl;
    try reflexivity;
    destruct (closest_wrapper p !! ("preview-" +:+ id)); page_simpl;
    destruct (String.prefix "char" id); page_simpl; try reflexivity;
    destruct (checkboxes (world p) !! ("checkbox-" +:+ id)); reflexivity.
Qed.

(** The store after a removal, whatever else happened. *)
Lemma handleRemoveImage_store (id : string) (p : Page) :
  referenceImages (world (handleRemoveImage id p).2)
  = <[id := None]> (referenceImages (world p))
  /\ next_oid (handleRemoveImage id p).2 = next_oid p.
Proof.
  rewrite handleRemoveImage_unfold. cbn zeta.
  destruct (previews p !! ("preview-" +:+ id)); page_simpl; [|done].
  destruct (String.prefix "char" id); [|done].
  by destruct (checkboxes (world p) !! ("checkbox-" +:+ id)).
Qed.

Lemma handleRemoveImage_checkboxes (id : string) (p : Page) :
  checkboxes (world (handleRemoveImage id p).2)
  = match previews p !! ("preview-" +:+ id),
          checkboxes (world p) !! ("checkbox-" +:+ id) with
    | Some _, Some _ =>
        if String.prefix "char" id
        then <["checkbox-" +:+ id := false]> (checkboxes (world p))
        else checkboxes (world p)
    | _, _ => checkboxes (world p)
    end.
Proof.
  rewrite handleRemoveImage_unfold. cbn zeta.
  destruct (previews p !! ("preview-" +:+ id)); page_simpl; [|done].
  destruct (String.prefix "char" id);
    by destruct (checkboxes (world p) !! ("checkbox-" +:+ id)).
Qed.

(** X16. After a removal the slot is empty, whether or not the handler ran
    to its end; every other slot keeps what it held; no checkbox other than
    the slot's own changes, and none at all when the identifier does not
    start with char. *)
Theorem handleRemoveImage_clears (id : string) (p : Page) :
  slot (world (handleRemoveImage id p).2) id = None
  /\ (forall id', id' <> id ->
        slot (world (handleRemoveImage id p).2) id' = slot (world p) id')
  /\ (forall k, k <> "checkbox-" +:+ id ->
        checkboxes (world (handleRemoveImage id p).2) !! k
        = checkboxes (world p) !! k)
  /\ (String.prefix "char" id = false ->
      checkboxes (world (handleRemoveImage id p).2) = checkboxes (world p)).
Proof.
  destruct (handleRemoveImage_store id p) as [Hstore _].
  pose proof (handleRemoveImage_checkboxes id p) as Hboxes.
  repeat split.
  - unfold slot. by rewrite Hstore, lookup_insert_eq.
  - intros id' Hne. unfold slot. by rewrite Hstore, lookup_insert_ne.
  - intros k Hk. rewrite Hboxes.
    destruct (previews p !! _), (checkboxes (world p) !! ("checkbox-" +:+ id));
      try done.
    destruct (String.prefix "char" id); [|done]. by rewrite lookup_insert_ne.
  - intros Hpre. rewrite Hboxes, Hpre. by repeat case_match.
Qed.

(** X17. When the preview element of the slot is missing, the removal
    clears the store and then throws on [preview.closest]: the checkbox of
    the slot is left as it was, ticked if it was ticked. *)
Theorem handleRemoveImage_missing_preview (id : string) (p : Page) :
  previews p !! ("preview-" +:+ id) = None ->
  (handleRemoveImage id p).1 = Throw (Js.TypeError_null "closest")
  /\ slot (world (handleRemoveImage id p).2) id = None
  /\ checkboxes (world (handleRemoveImage id p).2) = checkboxes (world p)
  /\ has_image (handleRemoveImage id p).2 = has_image p.
Proof.
  intros Hprev. split; [|split; [|split]].
  - rewrite handleRemoveImage_unfold. cbn zeta. by rewrite Hprev.
  - destruct (handleRemoveImage_store id p) as [Hstore _].
    unfold slot. by rewrite Hstore, lookup_insert_eq.
  - by rewrite handleRemoveImage_checkboxes, Hprev.
  - rewrite handleRemoveImage_unfold. cbn zeta. by rewrite Hprev.
Qed.

Lemma handleRemoveImage_missing_preview_witness :
  (handleRemoveImage "char9" sample_page).1 = Throw (Js.TypeError_null "closest").
Proof.
  apply (handleRemoveImage_missing_preview "char9" sample_page).
  vm_compute. reflexivity.
Defined.

Lemma append_inj_l (pre a b : string) : pre +:+ a = pre +:+ b -> a = b.
Proof.
  induction pre as [|c pre IH]; [done|].
  rewrite !append_cons. intros [= H]. by apply IH.
Qed.

Lemma char_id_small_inj (i j : nat) :
  i ∈ [1; 2; 3; 4] -> j ∈ [1; 2; 3; 4] -> char_id i = char_id j -> i = j.
Proof.
  intros Hi Hj.
  repeat (apply elem_of_cons in Hi as [->|Hi]); try (by apply elem_of_nil in Hi);
    repeat (apply elem_of_cons in Hj as [->|Hj]); try (by apply elem_of_nil in Hj);
    vm_compute; intros H; first [reflexivity | discriminate H].
Qed.

Lemma char_id_small_not_bg (i : nat) : i ∈ [1; 2; 3; 4] -> char_id i <> "bg".
Proof.
  intros Hi.
  repeat (apply elem_of_cons in Hi as [->|Hi]); try (by apply elem_of_nil in Hi);
    vm_compute; discriminate.
Qed.

Lemma char_id_small_prefix (i : nat) :
  i ∈ [1; 2; 3; 4] -> String.prefix "char" (char_id i) = true.
Proof.
  intros Hi.
  repeat (apply elem_of_cons in Hi as [->|Hi]); try (by apply elem_of_nil in Hi);
    reflexivity.
Qed.

(** X18. Removing the image of character slot i (its preview being on the
    page) unticks the slot's checkbox, and the selection resolved afterwards
    is the one before without that slot: the background and the other
    character slots contribute as they did. *)
Theorem handleRemoveImage_deselects (p : Page) (i : nat) (src : string) :
  i ∈ [1; 2; 3; 4] ->
  previews p !! ("preview-" +:+ char_id i) = Some src ->
  Forall (fun j => is_Some (checkboxes (world p) !! ("checkbox-" +:+ char_id j)))
    [1; 2; 3; 4] ->
  (handleRemoveImage (char_id i) p).1 = Normal tt
  /\ checkboxes (world (handleRemoveImage (char_id i) p).2)
       !! ("checkbox-" +:+ char_id i) = Some false
  /\ (getSelectedImages (world (handleRemoveImage (char_id i) p).2)).1
     = Normal (option_list (slot (world p) "bg")
               ++ flat_map (fun j => if decide (j = i) then []
                                     else slot_contribution (world p) j)
                    [1; 2; 3; 4]).
Proof.
  intros Hi Hprev Hboxes.
  assert (Hbox_i : is_Some (checkboxes (world p) !! ("checkbox-" +:+ char_id i))).
  { rewrite Forall_forall in Hboxes. by apply Hboxes. }
  destruct Hbox_i as [b Hb].
  pose proof (handleRemoveImage_checkboxes (char_id i) p) as Hcb.
  rewrite Hprev, Hb, (char_id_small_prefix i Hi) in Hcb.
  destruct (handleRemoveImage_store (char_id i) p) as [Hstore _].
  set (p' := (handleRemoveImage (char_id i) p).2) in *.
  split; [|split].
  - rewrite handleRemoveImage_unfold. cbn zeta. by rewrite Hprev.
  - by rewrite Hcb, lookup_insert_eq.
  - assert (Hcontr : forall j, j ∈ [1; 2; 3; 4] ->
              slot_contribution (world p') j
              = if decide (j = i) then [] else slot_contribution (world p) j).
    { intros j Hj. unfold slot_contribution, slot. rewrite Hcb, Hstore.
      destruct (decide (j = i)) as [->|Hne].
      - by rewrite lookup_insert_eq.
      - rewrite !lookup_insert_ne; [done| |].
        + intros Heq. apply Hne. symmetry. by apply char_id_small_inj.
        + intros Heq%append_inj_l. apply Hne. symmetry.
          by apply char_id_small_inj. }
    assert (Hbg : slot (world p') "bg" = slot (world p) "bg").
    { unfold slot. rewrite Hstore, lookup_insert_ne; [done|].
      by apply char_id_small_not_bg. }
    unfold getSelectedImages. js_simpl. change (seq 1 4) with [1; 2; 3; 4].
    rewrite getSelectedImages_for_spec.
    + cbn [fst flat_map]. rewrite Hbg.
      rewrite !Hcontr by (repeat constructor).
      by destruct (slot (world p) "bg").
    + rewrite Forall_forall in Hboxes |- *. intros j Hj. rewrite Hcb.
      destruct (decide ("checkbox-" +:+ char_id i = "checkbox-" +:+ char_id j))
        as [->|Hne].
      * rewrite lookup_insert_eq. eauto.
      * rewrite lookup_insert_ne by done. by apply Hboxes.
Qed.

(** X19. Removing twice is the same as removing once: the second removal
    finds the page as the first left it, and ends the same way. *)
Theorem handleRemoveImage_idempotent (id : string) (p : Page) :
  handleRemoveImage id (handleRemoveImage id p).2 = handleRemoveImage id p.
Proof.
  rewrite (handleRemoveImage_unfold id p). cbn zeta.
  destruct (previews p !! ("preview-" +:+ id)) as [src|] eqn:Hprev;
    rewrite handleRemoveImage_unfold; cbn zeta; page_simpl.
  - rewrite lookup_insert_eq. f_equal.
    assert (Hinputs :
      match
        match fileInputs p !! ("file-input-" +:+ id) with
        | Some _ => <["file-input-" +:+ id := ""]> (fileInputs p)
        | None => fileInputs p
        end !! ("file-input-" +:+ id)
      with
      | Some _ =>
          <["file-input-" +:+ id := ""]>
            match fileInputs p !! ("file-input-" +:+ id) with
            | Some _ => <["file-input-" +:+ id := ""]> (fileInputs p)
            | None => fileInputs p
            end
      | None =>
          match fileInputs p !! ("file-input-" +:+ id) with
          | Some _ => <["file-input-" +:+ id := ""]> (fileInputs p)
          | None => fileInputs p
          end
      end
      = match fileInputs p !! ("file-input-" +:+ id) with
        | Some _ => <["file-input-" +:+ id := ""]> (fileInputs p)
        | None => fileInputs p
        end).
    { destruct (fileInputs p !! ("file-input-" +:+ id)) eqn:Hf.
      - by rewrite lookup_insert_eq, insert_insert_eq.
      - by rewrite Hf. }
    rewrite Hinputs.
    destruct (String.prefix "char" id);
      [destruct (checkboxes (world p) !! ("checkbox-" +:+ id)) eqn:Hc|];
      page_simpl; rewrite ?lookup_insert_eq, ?Hc, ?insert_insert_eq;
      f_equal; destruct (closest_wrapper p !! ("preview-" +:+ id));
      try reflexivity;
      by rewrite difference_difference_l_L, union_idemp_L.
  - rewrite Hprev. f_equal. rewrite insert_insert_eq.
    destruct (fileInputs p !! ("file-input-" +:+ id)) eqn:Hf.
    + by rewrite lookup_insert_eq, insert_insert_eq.
    + by rewrite Hf.
Qed.

Lemma handleRemoveImage_deselects_witness :
  (getSelectedImages
     (world (handleRemoveImage "char1"
               (set_world sample_world sample_page)).2)).1
  = Normal [sample_image 0 "Qkc="; sample_image 4 "QzQ="].
Proof.
  destruct (handleRemoveImage_deselects (set_world sample_world sample_page) 1 "")
    as (_ & _ & Hsel).
  - repeat constructor.
  - vm_compute. reflexivity.
  - repeat constructor; vm_compute; eauto.
  - change (char_id 1) with "char1" in Hsel. rewrite Hsel. vm_compute. reflexivity.
Defined.

(** [handleFileChange_onload] field by field. *)
Lemma handleFileChange_onload_unfold (id dataUrl : string) (p : Page) :
  handleFileChange_onload id dataUrl p
  = match previews p !! ("preview-" +:+ id) with
    | None => (Throw (TypeError_null_set "src"), p)
    | Some _ =>
        (Normal tt,
         {| world :=
              set_referenceImages
                (<[id := Some {| oid := next_oid p;
                                 base64 := Js.split "," dataUrl !! 1;
                                 mimeType :=
                                   Js.or_else
                                     (match_colon_group (hd "" (Js.split "," dataUrl)))
                                     "image/png" |}]>
                   (referenceImages (world p))) (world p);
            previews := <["preview-" +:+ id := dataUrl]> (previews p);
            fileInputs := fileInputs p;
            closest_wrapper := closest_wrapper p;
            has_image :=
              match closest_wrapper p !! ("preview-" +:+ id) with
              | Some wrapper => {[wrapper]} ∪ has_image p
              | None => has_image p
              end;
            next_oid := S (next_oid p) |})
    end.
Proof.
  unfold handleFileChange_onload.
  destruct (previews p !! ("preview-" +:+ id)); [|reflexivity]. page_simpl.
  by destruct (closest_wrapper p !! ("preview-" +:+ id)).
Qed.

Lemma lazy_until_semicolon_token (mime rest : string) :
  mime_token mime = true ->
  lazy_until_semicolon (mime +:+ String ";" rest) = Some mime.
Proof.
  induction mime as [|c mime IH]; intros Hm; [reflexivity|].
  cbn [mime_token] in Hm.
  apply andb_true_iff in Hm as [Hm Hrest].
  apply andb_true_iff in Hm as [Hm H226].
  apply andb_true_iff in Hm as [Hm H13].
  apply andb_true_iff in Hm as [Hsemi H10].
  apply negb_true_iff in Hsemi, H10, H13, H226.
  rewrite append_cons. cbn [lazy_until_semicolon]. rewrite Hsemi.
  assert (Hno : line_terminator_ahead (String c (mime +:+ String ";" rest)) = false).
  { unfold line_terminator_ahead. cbn [String.prefix].
    apply Ascii.eqb_neq in H10, H13, H226.
    repeat (destruct (ascii_dec _ c) as [<-|_]; [congruence|]).
    reflexivity. }
  rewrite Hno, IH by assumption. reflexivity.
Qed.

Lemma match_colon_group_scheme (scheme tail : string) :
  has_char ":" scheme = false ->
  match_colon_group (scheme +:+ String ":" tail)
  = match lazy_until_semicolon tail with
    | Some g => Some g
    | None => match_colon_group tail
    end.
Proof.
  induction scheme as [|c scheme IH]; intros Hs; [reflexivity|].
  cbn [has_char] in Hs. apply orb_false_iff in Hs as [Hc Hs].
  rewrite append_cons. cbn [match_colon_group]. rewrite Hc. by apply IH.
Qed.

(** The pieces and the MIME type of a data URL of the reader's form. *)
Lemma data_url_parse (mime payload : string) :
  mime_token mime = true ->
  has_char "," mime = false ->
  has_char "," payload = false ->
  Js.split "," ("data:" +:+ mime +:+ ";base64," +:+ payload)
  = ["data:" +:+ mime +:+ ";base64"; payload]
  /\ match_colon_group ("data:" +:+ mime +:+ ";base64") = Some mime.
Proof.
  intros Htok Hmime Hpay. split.
  - change (";base64," +:+ payload) with (";base64" +:+ String "," payload).
    rewrite <- (append_assoc mime), <- (append_assoc "data:").
    unfold Js.split. rewrite split_go_first_sep.
    + by rewrite split_go_no_sep.
    + rewrite !has_char_append, Hmime. reflexivity.
  - change ("data:" +:+ mime +:+ ";base64")
      with ("data" +:+ String ":" (mime +:+ String ";" "base64")).
    rewrite match_colon_group_scheme by reflexivity.
    by rewrite lazy_until_semicolon_token.
Qed.

(** X20. An upload whose reader result is data:<MIME type>;base64,<payload>
    stores in the slot a new object with exactly that payload and that MIME
    type (image/png when the MIME type is empty), shows the data URL in the
    preview and marks the wrapper as holding an image. *)
Theorem handleFileChange_onload_stores (id mime payload src : string) (p : Page) :
  previews p !! ("preview-" +:+ id) = Some src ->
  mime_token mime = true ->
  has_char "," mime = false ->
  has_char "," payload = false ->
  exists p',
    handleFileChange_onload id ("data:" +:+ mime +:+ ";base64," +:+ payload) p
    = (Normal tt, p')
    /\ slot (world p') id
       = Some {| oid := next_oid p; base64 := Some payload;
                 mimeType := Js.or_else (Some mime) "image/png" |}
    /\ previews p' !! ("preview-" +:+ id)
       = Some ("data:" +:+ mime +:+ ";base64," +:+ payload)
    /\ (forall wrapper, closest_wrapper p !! ("preview-" +:+ id) = Some wrapper ->
          wrapper ∈ has_image p')
    /\ next_oid p' = S (next_oid p).
Proof.
  intros Hprev Htok Hmime Hpay.
  destruct (data_url_parse mime payload Htok Hmime Hpay) as [Hsplit Hgroup].
  rewrite handleFileChange_onload_unfold, Hprev, Hsplit.
  cbn [lookup list_lookup hd]. rewrite Hgroup.
  eexists. split; [reflexivity|]. page_simpl.
  split; [apply slot_insert_eq|]. split; [by rewrite lookup_insert_eq|].
  split; [|reflexivity].
  intros wrapper ->. apply elem_of_union. left. by apply elem_of_singleton.
Qed.

Lemma handleFileChange_onload_stores_witness :
  exists p',
    handleFileChange_onload "char2" "data:image/jpeg;base64,QUJD" sample_page
    = (Normal tt, p')
    /\ slot (world p') "char2"
       = Some {| oid := 0; base64 := Some "QUJD"; mimeType := "image/jpeg" |}.
Proof.
  destruct (handleFileChange_onload_stores "char2" "image/jpeg" "QUJD" ""
              sample_page) as (p' & Hrun & Hslot & _); try reflexivity.
  exists p'. split; [exact Hrun|exact Hslot].
Defined.

(** X21. Whatever the reader result, an upload changes no slot but its own,
    no checkbox, no file input and nothing of the submit form; when the
    preview element of the slot is missing it throws before anything is
    stored; and when the result has no comma the object it stores has an
    undefined payload. *)
Theorem handleFileChange_onload_frame (id dataUrl : string) (p : Page) :
  (forall id', id' <> id ->
     slot (world (handleFileChange_onload id dataUrl p).2) id' = slot (world p) id')
  /\ checkboxes (world (handleFileChange_onload id dataUrl p).2)
     = checkboxes (world p)
  /\ fileInputs (handleFileChange_onload id dataUrl p).2 = fileInputs p
  /\ promptInput (world (handleFileChange_onload id dataUrl p).2)
     = promptInput (world p)
  /\ aspectRatioSelect (world (handleFileChange_onload id dataUrl p).2)
     = aspectRatioSelect (world p)
  /\ requests (world (handleFileChange_onload id dataUrl p).2) = requests (world p)
  /\ (previews p !! ("preview-" +:+ id) = None ->
      handleFileChange_onload id dataUrl p = (Throw (TypeError_null_set "src"), p))
  /\ (is_Some (previews p !! ("preview-" +:+ id)) ->
      has_char "," dataUrl = false ->
      (handleFileChange_onload id dataUrl p).1 = Normal tt
      /\ exists mimeType,
           slot (world (handleFileChange_onload id dataUrl p).2) id
           = Some {| oid := next_oid p; base64 := None; mimeType := mimeType |}).
Proof.
  rewrite handleFileChange_onload_unfold.
  destruct (previews p !! ("preview-" +:+ id)) as [src|]; page_simpl.
  - split; [intros id' Hne; by apply slot_insert_ne|].
    do 5 (split; [reflexivity|]). split; [discriminate|].
    intros _ Hcomma. split; [reflexivity|].
    unfold Js.split. rewrite split_go_no_sep by assumption.
    cbn [lookup list_lookup]. eexists. apply slot_insert_eq.
  - split; [done|]. do 5 (split; [reflexivity|]). split; [done|].
    by intros [? ?].
Qed.

Lemma handleFileChange_onload_frame_witness :
  (handleFileChange_onload "char2" "data:" sample_page).1 = Normal tt
  /\ exists mimeType,
       slot (world (handleFileChange_onload "char2" "data:" sample_page).2) "char2"
       = Some {| oid := 0; base64 := None; mimeType := mimeType |}.
Proof.
  destruct (handleFileChange_onload_frame "char2" "data:" sample_page)
    as (_ & _ & _ & _ & _ & _ & _ & Hcomma).
  apply Hcomma; [vm_compute; eauto | reflexivity].
Defined.

(** X22. Upload, then remove: whatever the reader result was, the slot is
    empty again, the preview is blank, the wrapper no longer carries
    has-image, and the removal ends normally. *)
Theorem upload_then_remove (id dataUrl src : string) (p : Page) :
  previews p !! ("preview-" +:+ id) = Some src ->
  (handleFileChange_onload id dataUrl p).1 = Normal tt
  /\ (handleRemoveImage id (handleFileChange_onload id dataUrl p).2).1 = Normal tt
  /\ slot (world (handleRemoveImage id (handleFileChange_onload id dataUrl p).2).2) id
     = None
  /\ previews (handleRemoveImage id (handleFileChange_onload id dataUrl p).2).2
       !! ("preview-" +:+ id) = Some ""
  /\ (forall wrapper, closest_wrapper p !! ("preview-" +:+ id) = Some wrapper ->
        wrapper ∉ has_image
                    (handleRemoveImage id (handleFileChange_onload id dataUrl p).2).2).
Proof.
  intros Hprev. rewrite handleFileChange_onload_unfold, Hprev. cbn [fst snd].
  split; [reflexivity|].
  rewrite handleRemoveImage_unfold. cbn zeta. page_simpl.
  rewrite lookup_insert_eq. page_simpl.
  split; [reflexivity|]. split.
  - destruct (String.prefix "char" id);
      [destruct (checkboxes (world p) !! ("checkbox-" +:+ id))|];
      unfold slot; cbn; by rewrite lookup_insert_eq.
  - split; [by rewrite lookup_insert_eq|].
    intros wrapper ->. apply not_elem_of_difference. right.
    by apply elem_of_singleton.
Qed.

Lemma upload_then_remove_witness :
  slot (world (handleRemoveImage "bg"
                 (handleFileChange_onload "bg" "data:image/png;base64,QUJD"
                    sample_page).2).2) "bg" = None
  /\ slot (world (handleFileChange_onload "bg" "data:image/png;base64,QUJD"
                    sample_page).2) "bg"
     = Some {| oid := 0; base64 := Some "QUJD"; mimeType := "image/png" |}.
Proof.
  split; [|vm_compute; reflexivity].
  apply (upload_then_remove "bg" "data:image/png;base64,QUJD" "" sample_page).
  vm_compute. reflexivity.
Defined.

(** *** What the handlers keep true *)

Lemma initial_slots_empty (id : string) : mjoin (initial_referenceImages !! id) = None.
Proof.
  destruct (initial_referenceImages !! id) as [[r|]|] eqn:H; try reflexivity.
  unfold initial_referenceImages in H.
  repeat (apply lookup_insert_Some in H as [[_ H]|[_ H]]; [discriminate|]).
  by rewrite lookup_empty in H.
Qed.

Lemma reachable_store_wf (p : Page) : reachable p -> store_wf p.
Proof.
  induction 1 as [p Hinit | p id dataUrl _ [IHfresh IHdist]
                 | p id _ [IHfresh IHdist] | p p' _ [IHfresh IHdist] Hrefs Hoid].
  - assert (Hnone : forall id, slot (world p) id = None).
    { intros id. unfold slot. rewrite Hinit. apply initial_slots_empty. }
    split; intros *; by rewrite Hnone.
  - rewrite handleFileChange_onload_unfold.
    destruct (previews p !! ("preview-" +:+ id)) as [src|]; [|by split].
    cbn [snd].
    assert (Hslot : forall id' r,
              slot (set_referenceImages
                      (<[id := Some {| oid := next_oid p;
                                       base64 := Js.split "," dataUrl !! 1;
                                       mimeType :=
                                         Js.or_else
                                           (match_colon_group
                                              (hd "" (Js.split "," dataUrl)))
                                           "image/png" |}]>
                         (referenceImages (world p))) (world p)) id' = Some r ->
              (id' = id /\ oid r = next_oid p)
              \/ (id' <> id /\ slot (world p) id' = Some r)).
    { intros id' r. destruct (decide (id = id')) as [<-|Hne].
      - rewrite slot_insert_eq. intros [= <-]. by left.
      - rewrite slot_insert_ne by done. intros Hr. right. by split. }
    unfold store_wf. page_simpl. split.
    + intros id' r [[_ ->]|[_ Hr]]%Hslot; [lia|]. apply IHfresh in Hr. lia.
    + intros id1 id2 r1 r2 [[-> H1]|[Hn1 H1]]%Hslot [[-> H2]|[Hn2 H2]]%Hslot Hsame;
        unfold same_object in Hsame; apply Nat.eqb_eq in Hsame.
      * reflexivity.
      * apply IHfresh in H2. lia.
      * apply IHfresh in H1. lia.
      * apply (IHdist id1 id2 r1 r2 H1 H2). unfold same_object.
        by apply Nat.eqb_eq.
  - destruct (handleRemoveImage_store id p) as [Hstore Hoid].
    assert (Hslot : forall id' r,
              slot (world (handleRemoveImage id p).2) id' = Some r ->
              slot (world p) id' = Some r).
    { intros id' r. unfold slot. rewrite Hstore.
      destruct (decide (id = id')) as [<-|Hne].
      - by rewrite lookup_insert_eq.
      - by rewrite lookup_insert_ne. }
    split.
    + intros id' r Hr%Hslot. rewrite Hoid. by apply IHfresh in Hr.
    + intros id1 id2 r1 r2 H1%Hslot H2%Hslot. by apply IHdist.
  - unfold store_wf, slot. rewrite Hrefs, Hoid. by split.
Qed.

(** X23. On every page the handlers can produce from a freshly loaded
    module, whatever the reader results of the uploads were, each stored
    image object was allocated before the current allocation point and no
    two slots hold the same object. *)
Theorem reachable_slots_distinct (p : Page) :
  reachable p ->
  (forall id r, slot (world p) id = Some r -> oid r < next_oid p)
  /\ (forall id1 id2 r1 r2,
        slot (world p) id1 = Some r1 -> slot (world p) id2 = Some r2 ->
        same_object r1 r2 = true -> id1 = id2).
Proof. apply reachable_store_wf. Qed.

Lemma uploaded_page_reachable : reachable uploaded_page.
Proof.
  unfold uploaded_page. do 2 apply reach_upload. by apply reach_initial.
Qed.

Lemma reachable_slots_distinct_witness :
  slot (world uploaded_page) "bg"
  = Some {| oid := 0; base64 := Some "QUJD"; mimeType := "image/png" |}
  /\ slot (world uploaded_page) "char1"
     = Some {| oid := 1; base64 := Some "REVG"; mimeType := "image/jpeg" |}
  /\ (forall id r, slot (world uploaded_page) id = Some r -> oid r < 2)
  /\ (forall id r,
        slot (world uploaded_page) id = Some r ->
        same_object r {| oid := 1; base64 := Some "REVG"; mimeType := "image/jpeg" |}
        = true ->
        id = "char1").
Proof.
  destruct (reachable_slots_distinct uploaded_page uploaded_page_reachable)
    as [Hfresh Hdist].
  split; [vm_compute; reflexivity|]. split; [vm_compute; reflexivity|]. split.
  - exact Hfresh.
  - intros id r Hr Hsame.
    apply (Hdist id "char1" r
             {| oid := 1; base64 := Some "REVG"; mimeType := "image/jpeg" |} Hr);
      [|exact Hsame].
    vm_compute. reflexivity.
Defined.

Lemma stored_oids_NoDup (w : World) (ids : list string) :
  NoDup ids ->
  (forall id1 id2 r1 r2,
      slot w id1 = Some r1 -> slot w id2 = Some r2 ->
      same_object r1 r2 = true -> id1 = id2) ->
  NoDup (map oid (omap (slot w) ids)).
Proof.
  intros Hnd Hdist. induction Hnd as [|id ids Hnotin _ IH]; [constructor|].
  rewrite omap_cons_eq. destruct (slot w id) as [r|] eqn:Hr; [|exact IH].
  cbn [map]. constructor; [|exact IH].
  intros Hin. apply list_elem_of_fmap in Hin as (r' & Heq & Hin').
  apply list_elem_of_omap in Hin' as (id' & Hid' & Hr').
  assert (id = id') as <-; [|done].
  apply (Hdist id id' r r' Hr Hr'). unfold same_object. by apply Nat.eqb_eq.
Qed.

Lemma contribution_sublist (checked : bool) (img : option ReferenceImage) :
  contribution checked img `sublist_of` option_list img.
Proof. destruct checked; [done|]. apply sublist_nil_l. Qed.

Lemma selection_sublist_stored (w : World) (sel : list ReferenceImage) :
  (getSelectedImages w).1 = Normal sel ->
  sel `sublist_of` omap (slot w) ["bg"; "char1"; "char2"; "char3"; "char4"].
Proof.
  intros Hsel.
  assert (Hboxes : Forall (fun i => is_Some (checkboxes w !! ("checkbox-" +:+ char_id i)))
                     [1; 2; 3; 4]).
  { apply Forall_forall. intros i Hi.
    destruct (checkboxes w !! ("checkbox-" +:+ char_id i)) eqn:Hbox; [eauto|].
    unfold getSelectedImages in Hsel. revert Hsel. js_simpl.
    change (seq 1 4) with [1; 2; 3; 4].
    by rewrite (getSelectedImages_for_missing _ _ _ i Hi Hbox). }
  unfold getSelectedImages in Hsel. revert Hsel. js_simpl.
  change (seq 1 4) with [1; 2; 3; 4].
  rewrite getSelectedImages_for_spec by assumption. cbn [fst].
  intros [= <-].
  replace (match slot w "bg" with Some b => [b] | None => [] end)
    with (option_list (slot w "bg")) by (by destruct (slot w "bg")).
  replace (omap (slot w) ["bg"; "char1"; "char2"; "char3"; "char4"])
    with (option_list (slot w "bg") ++ option_list (slot w (char_id 1))
          ++ option_list (slot w (char_id 2)) ++ option_list (slot w (char_id 3))
          ++ option_list (slot w (char_id 4)) ++ []).
  2:{ rewrite !omap_cons_eq.
      change (char_id 1) with "char1". change (char_id 2) with "char2".
      change (char_id 3) with "char3". change (char_id 4) with "char4".
      destruct (slot w "bg"), (slot w "char1"), (slot w "char2"),
        (slot w "char3"), (slot w "char4"); reflexivity. }
  cbn [flat_map]. apply sublist_app; [done|].
  repeat (apply sublist_app; [|try done]);
    unfold slot_contribution;
    try (destruct (checkboxes w !! _);
         [apply contribution_sublist | apply sublist_nil_l]).
Qed.

(** X24. On a page the handlers can produce, a selection never holds the
    same image object twice. *)
Theorem selection_no_duplicates (p : Page) (sel : list ReferenceImage) :
  reachable p ->
  (getSelectedImages (world p)).1 = Normal sel ->
  NoDup (map oid sel).
Proof.
  intros Hreach Hsel.
  destruct (reachable_store_wf p Hreach) as [_ Hdist].
  eapply sublist_NoDup.
  - apply (stored_oids_NoDup (world p) ["bg"; "char1"; "char2"; "char3"; "char4"]);
      [|exact Hdist].
    apply (bool_decide_unpack _). vm_compute. reflexivity.
  - apply (fmap_sublist oid). by apply selection_sublist_stored.
Qed.

(** ** Handlers and submit together *)

Section Page_and_submit.

Variable ai : Service.

Lemma generate_requests_sent (w : World) (d : bool) (prompt aspectRatio : string)
    (sel : list ReferenceImage) :
  generateBtn w = Some d ->
  promptInput w = Some prompt ->
  aspectRatioSelect w = Some aspectRatio ->
  (getSelectedImages w).1 = Normal sel ->
  requests (generateAndDisplayImages ai w).2
  = requests w ++
      [match sel with
       | [] => GenerateImages (text_request prompt aspectRatio)
       | _ :: _ =>
           GenerateContent (composition_request (slot w "bg") sel prompt aspectRatio)
       end].
Proof.
  intros Hb Hp Ha Hsel.
  rewrite (generateAndDisplayImages_outcome ai w d Hb).
  destruct (try_entry_fields w) as (_ & _ & Hp' & Ha' & _ & Hreq & _).
  destruct (generate_try_request ai (try_entry w) prompt aspectRatio sel)
    as (c & v & Heq & _).
  { by rewrite Hp'. } { by rewrite Ha'. } { by rewrite try_entry_selection. }
  rewrite Heq, try_entry_slot, Hreq. cbn [fst snd].
  destruct c as [[]|e]; [reflexivity|].
  set (w3 := set_imageGallery v _).
  destruct (generate_catch_world e w3) as (_ & _ & Hreq' & _).
  cbn [requests set_generateBtn]. by rewrite Hreq'.
Qed.

(** X25. Submitting again without touching the page sends the same request
    again: the first submit leaves the button enabled and the inputs as they
    were, so the retry resolves the same selection and composes the same
    prompt. *)
Theorem submit_twice_same_request (w : World) (d : bool)
    (prompt aspectRatio : string) (sel : list ReferenceImage) :
  generateBtn w = Some d ->
  promptInput w = Some prompt ->
  aspectRatioSelect w = Some aspectRatio ->
  (getSelectedImages w).1 = Normal sel ->
  exists request,
    requests (generateAndDisplayImages ai w).2 = requests w ++ [request]
    /\ requests (generateAndDisplayImages ai (generateAndDisplayImages ai w).2).2
       = requests w ++ [request; request].
Proof.
  intros Hb Hp Ha Hsel.
  pose proof (generate_requests_sent w d prompt aspectRatio sel Hb Hp Ha Hsel) as H1.
  destruct (generate_frame ai w d Hb) as (Hr & Hc & Hp1 & Ha1 & _).
  set (w1 := (generateAndDisplayImages ai w).2) in *.
  assert (Hb1 : generateBtn w1 = Some false).
  { unfold w1. by rewrite (generateAndDisplayImages_outcome ai w d Hb). }
  assert (Hsel1 : (getSelectedImages w1).1 = Normal sel).
  { by rewrite (getSelectedImages_ext w1 w Hr Hc). }
  assert (Hbg : slot w1 "bg" = slot w "bg") by (unfold slot; by rewrite Hr).
  pose proof (generate_requests_sent w1 false prompt aspectRatio sel Hb1) as H2.
  rewrite Hp1, Ha1, Hbg, H1 in H2. specialize (H2 Hp Ha Hsel1).
  eexists. split; [exact H1|]. by rewrite H2, <- app_assoc.
Qed.

Lemma includes_refl (s : string) : Js.includes s s = true.
Proof. rewrite <- (append_nil_r s) at 1. apply includes_prefix. Qed.

Lemma composePrompt_with_background (b : ReferenceImage)
    (rest : list ReferenceImage) (prompt aspectRatio : string) :
  Js.includes (composePrompt (Some b) (b :: rest) prompt aspectRatio) bg_instruction
  = true.
Proof.
  unfold composePrompt.
  assert (Hbg : hasBg_of (Some b) (b :: rest) = true).
  { unfold hasBg_of. cbn [length head Nat.ltb Nat.leb andb]. apply same_object_refl. }
  rewrite Hbg. unfold instructions_of, finalPrompt_of.
  destruct (0 <? numCharacters_of true (b :: rest)); cbn [app length Nat.ltb Nat.leb].
  - apply includes_append_l. cbn [Js.join]. rewrite !append_assoc.
    apply includes_prefix.
  - apply includes_append_l. cbn [Js.join]. apply includes_prefix.
Qed.

Lemma instructions_of_shape (hasBg : bool) (img : ReferenceImage)
    (rest : list ReferenceImage) :
  instructions_of hasBg (numCharacters_of hasBg (img :: rest)) = [bg_instruction]
  \/ exists pre,
       Js.join " " (instructions_of hasBg (numCharacters_of hasBg (img :: rest)))
       = pre +:+ once_instruction
       /\ (0 <? length (instructions_of hasBg (numCharacters_of hasBg (img :: rest))))
          = true.
Proof.
  unfold instructions_of, numCharacters_of. cbn [length].
  destruct hasBg.
  - rewrite Nat.sub_1_r. cbn [Nat.pred]. destruct rest as [|r rest]; [by left|].
    right. cbn [length Nat.ltb Nat.leb app Js.join]. eexists.
    split; [|reflexivity]. by rewrite <- !append_assoc.
  - right. cbn [Nat.ltb Nat.leb app Js.join length]. eexists.
    split; [|reflexivity]. by rewrite <- !append_assoc.
Qed.

(** X4. In composition mode the user's prompt is never sent bare: the
    request's text part is an instruction text, a blank line, the prompt
    quoted as the creative brief, a blank line and the aspect sentence; the
    instruction text is the background-removal instruction alone or ends
    with the appear-only-once instruction. *)
Theorem composition_prompt_is_briefed (w : World) (d : bool)
    (prompt aspectRatio : string) (img : ReferenceImage)
    (rest : list ReferenceImage) :
  generateBtn w = Some d ->
  promptInput w = Some prompt ->
  aspectRatioSelect w = Some aspectRatio ->
  (getSelectedImages w).1 = Normal (img :: rest) ->
  exists instructions,
    requests (generateAndDisplayImages ai w).2
    = requests w ++
        [GenerateContent
           {| cr_model := "gemini-2.5-flash-image-preview";
              cr_parts :=
                map (fun i => InlineDataPart (base64 i) (mimeType i)) (img :: rest)
                ++ [TextPart
                      (instructions +:+ newline +:+ newline
                         +:+ "Here is the creative brief: " +:+ dquote +:+ prompt
                         +:+ dquote +:+ newline +:+ newline
                         +:+ "Finally, the image must have a " +:+ aspectRatio
                         +:+ " aspect ratio.")];
              cr_responseModalities := [IMAGE; TEXT] |}]
    /\ (instructions
        = "Use the first provided image as the main background. Critically, you must remove any people from this image, using only the scenery as the background for the final composition."
        \/ Js.endsWith instructions
             "Crucially, ensure each distinct character appears only once in the final image and that no characters are omitted or duplicated."
           = true).
Proof.
  intros Hb Hp Ha Hsel.
  rewrite (generate_requests_sent w d prompt aspectRatio _ Hb Hp Ha Hsel).
  unfold composition_request, composePrompt, finalPrompt_of, aspect_sentence.
  set (hasBg := hasBg_of (slot w "bg") (img :: rest)).
  exists (Js.join " " (instructions_of hasBg (numCharacters_of hasBg (img :: rest)))).
  destruct (instructions_of_shape hasBg img rest) as [Hone | (pre & Hjoin & Hlen)].
  - rewrite Hone. cbn [length Nat.ltb Nat.leb Js.join].
    split; [|by left]. by rewrite !append_assoc.
  - rewrite Hlen. split; [by rewrite !append_assoc|].
    right. rewrite Hjoin. apply endsWith_append.
Qed.

(** X26. Upload a background, then submit: the request goes to the
    composition endpoint, its first part is the uploaded payload with its
    MIME type, the parts of the ticked character slots follow, and the
    prompt sent contains the background-removal instruction. *)
Theorem upload_background_then_submit (p : Page) (d : bool)
    (mime payload src prompt aspectRatio : string) :
  previews p !! "preview-bg" = Some src ->
  mime_token mime = true ->
  has_char "," mime = false ->
  has_char "," payload = false ->
  generateBtn (world p) = Some d ->
  promptInput (world p) = Some prompt ->
  aspectRatioSelect (world p) = Some aspectRatio ->
  Forall (fun j => is_Some (checkboxes (world p) !! ("checkbox-" +:+ char_id j)))
    [1; 2; 3; 4] ->
  exists p' background finalPrompt,
    handleFileChange_onload "bg" ("data:" +:+ mime +:+ ";base64," +:+ payload) p
    = (Normal tt, p')
    /\ requests (generateAndDisplayImages ai (world p')).2
       = requests (world p) ++
           [GenerateContent
              {| cr_model := "gemini-2.5-flash-image-preview";
                 cr_parts :=
                   InlineDataPart (Some payload)
                     (Js.or_else (Some mime) "image/png")
                   :: map (fun img => InlineDataPart (base64 img) (mimeType img))
                        (flat_map (slot_contribution (world p)) [1; 2; 3; 4])
                   ++ [TextPart finalPrompt];
                 cr_responseModalities := [IMAGE; TEXT] |}]
    /\ slot (world p') "bg" = Some background
    /\ finalPrompt
       = composePrompt (Some background)
           (background :: flat_map (slot_contribution (world p)) [1; 2; 3; 4])
           prompt aspectRatio
    /\ Js.includes finalPrompt
         "Use the first provided image as the main background. Critically, you must remove any people from this image, using only the scenery as the background for the final composition."
       = true.
Proof.
  intros Hprev Htok Hmime Hpay Hb Hp Ha Hboxes.
  destruct (data_url_parse mime payload Htok Hmime Hpay) as [Hsplit Hgroup].
  pose proof (handleFileChange_onload_unfold "bg"
                ("data:" +:+ mime +:+ ";base64," +:+ payload) p) as Hrun.
  change ("preview-" +:+ "bg") with "preview-bg" in Hrun.
  rewrite Hprev, Hsplit in Hrun. cbn [lookup list_lookup hd] in Hrun.
  rewrite Hgroup in Hrun.
  set (background := {| oid := next_oid p; base64 := Some payload;
                        mimeType := Js.or_else (Some mime) "image/png" |}) in *.
  match type of Hrun with _ = (_, ?q) => set (p' := q) in * end.
  assert (Hslot : forall id, id <> "bg" -> slot (world p') id = slot (world p) id).
  { intros id Hne. unfold p'. page_simpl. by apply slot_insert_ne. }
  assert (Hbgslot : slot (world p') "bg" = Some background).
  { unfold p'. page_simpl. apply slot_insert_eq. }
  assert (Hcontr : forall j, j ∈ [1; 2; 3; 4] ->
            slot_contribution (world p') j = slot_contribution (world p) j).
  { intros j Hj. unfold slot_contribution.
    rewrite Hslot by (by apply char_id_small_not_bg). reflexivity. }
  assert (Hsel : (getSelectedImages (world p')).1
                 = Normal (background
                           :: flat_map (slot_contribution (world p)) [1; 2; 3; 4])).
  { unfold getSelectedImages. js_simpl. change (seq 1 4) with [1; 2; 3; 4].
    rewrite getSelectedImages_for_spec by exact Hboxes.
    rewrite Hbgslot. cbn [fst flat_map app].
    by rewrite !Hcontr by (repeat constructor). }
  exists p', background,
    (composePrompt (Some background)
       (background :: flat_map (slot_contribution (world p)) [1; 2; 3; 4])
       prompt aspectRatio).
  split; [exact Hrun|]. split; [|split; [exact Hbgslot|split; [reflexivity|]]].
  - rewrite (generate_requests_sent (world p') d prompt aspectRatio _ Hb Hp Ha Hsel).
    rewrite Hbgslot. reflexivity.
  - apply composePrompt_with_background.
Qed.

End Page_and_submit.

(** ** The further properties at the worked inputs *)

Lemma generate_leaves_inputs_witness :
  referenceImages (generateAndDisplayImages sample_ai sample_world).2
  = referenceImages sample_world.
Proof.
  exact (proj1 (generate_leaves_inputs sample_ai sample_world false eq_refl)).
Defined.

Lemma generate_input_missing_witness :
  requests (generateAndDisplayImages sample_ai no_prompt_world).2 = []
  /\ console (generateAndDisplayImages sample_ai no_prompt_world).2
     = [Js.ErrorObject "TypeError" "Cannot read properties of null (reading 'value')"]
  /\ imageGallery (generateAndDisplayImages sample_ai no_prompt_world).2
     = Some [Markup ("<div class=" +:+ dquote +:+ "message error" +:+ dquote
                       +:+ ">Error: Cannot read properties of null (reading 'value')</div>")].
Proof.
  exact (proj1 (generate_input_missing sample_ai no_prompt_world false []
                  eq_refl eq_refl) eq_refl).
Defined.

Lemma generate_text_success_witness :
  console (generateAndDisplayImages images_ai empty_world).2 = [].
Proof.
  apply (generate_text_success images_ai empty_world false "P" "1:1" images_response);
    vm_compute; reflexivity.
Defined.

Lemma generate_composition_success_witness :
  console (generateAndDisplayImages images_ai sample_world).2 = [].
Proof.
  apply (generate_composition_success images_ai sample_world false "P" "16:9"
           [sample_image 0 "Qkc="; sample_image 1 "QzE="; sample_image 4 "QzQ="]
           inline_response
           {| content := Some {| parts := Some inline_parts |} |} []
           {| parts := Some inline_parts |} inline_parts);
    try (vm_compute; reflexivity); discriminate.
Defined.

Lemma generate_content_without_parts_witness :
  console (generateAndDisplayImages partless_ai sample_world).2
  = [Js.ErrorObject "TypeError" "Cannot read properties of undefined (reading 'filter')"]
  /\ imageGallery (generateAndDisplayImages partless_ai sample_world).2
     = Some [Markup ("<div class=" +:+ dquote +:+ "message error" +:+ dquote
                       +:+ ">Error: Cannot read properties of undefined (reading 'filter')</div>")].
Proof.
  apply (generate_content_without_parts partless_ai sample_world false
           [Markup "previous"] "P" "16:9"
           [sample_image 0 "Qkc="; sample_image 1 "QzE="; sample_image 4 "QzQ="]
           partless_response {| content := Some {| parts := None |} |} []
           {| parts := None |});
    try (vm_compute; reflexivity); discriminate.
Defined.

Lemma generate_no_content_witness :
  console (generateAndDisplayImages blank_ai sample_world).2
  = [Js.ErrorObject "Error" "No image was generated by the model."]
  /\ imageGallery (generateAndDisplayImages blank_ai sample_world).2
     = Some [Markup ("<div class=" +:+ dquote +:+ "message error" +:+ dquote
                       +:+ ">Error: No image was generated by the model.</div>")].
Proof.
  apply (generate_no_content blank_ai sample_world false [Markup "previous"]
           "P" "16:9"
           [sample_image 0 "Qkc="; sample_image 1 "QzE="; sample_image 4 "QzQ="]
           {| candidates := None |});
    try (vm_compute; reflexivity); [discriminate | left; reflexivity].
Defined.

Lemma selection_no_duplicates_witness :
  (getSelectedImages (world uploaded_page)).1
  = Normal [ {| oid := 0; base64 := Some "QUJD"; mimeType := "image/png" |};
             {| oid := 1; base64 := Some "REVG"; mimeType := "image/jpeg" |} ]
  /\ NoDup (map oid [ {| oid := 0; base64 := Some "QUJD"; mimeType := "image/png" |};
                      {| oid := 1; base64 := Some "REVG"; mimeType := "image/jpeg" |} ]).
Proof.
  split; [vm_compute; reflexivity|].
  apply (selection_no_duplicates uploaded_page).
  - unfold uploaded_page. do 2 apply reach_upload. by apply reach_initial.
  - vm_compute. reflexivity.
Defined.

Lemma submit_twice_same_request_witness :
  exists request,
    requests (generateAndDisplayImages sample_ai empty_world).2 = [request]
    /\ requests (generateAndDisplayImages sample_ai
                   (generateAndDisplayImages sample_ai empty_world).2).2
       = [request; request].
Proof.
  apply (submit_twice_same_request sample_ai empty_world false "P" "1:1" []);
    vm_compute; reflexivity.
Defined.

Lemma composition_prompt_is_briefed_witness :
  exists instructions,
    requests (generateAndDisplayImages images_ai sample_world).2
    = [GenerateContent
         {| cr_model := "gemini-2.5-flash-image-preview";
            cr_parts :=
              [InlineDataPart (Some "Qkc=") "image/png";
               InlineDataPart (Some "QzE=") "image/png";
               InlineDataPart (Some "QzQ=") "image/png";
               TextPart
                 (instructions +:+ newline +:+ newline
                    +:+ "Here is the creative brief: " +:+ dquote +:+ "P" +:+ dquote
                    +:+ newline +:+ newline
                    +:+ "Finally, the image must have a 16:9 aspect ratio.")];
            cr_responseModalities := [IMAGE; TEXT] |}]
    /\ (instructions
        = "Use the first provided image as the main background. Critically, you must remove any people from this image, using only the scenery as the background for the final composition."
        \/ Js.endsWith instructions
             "Crucially, ensure each distinct character appears only once in the final image and that no characters are omitted or duplicated."
           = true).
Proof.
  exact (composition_prompt_is_briefed images_ai sample_world false "P" "16:9"
           (sample_image 0 "Qkc=") [sample_image 1 "QzE="; sample_image 4 "QzQ="]
           eq_refl eq_refl eq_refl eq_refl).
Defined.

Lemma upload_background_then_submit_witness :
  exists finalPrompt,
    requests (generateAndDisplayImages sample_ai
                (world (handleFileChange_onload "bg" "data:image/png;base64,QUJD"
                          sample_page).2)).2
    = [GenerateContent
         {| cr_model := "gemini-2.5-flash-image-preview";
            cr_parts := [InlineDataPart (Some "QUJD") "image/png";
                         TextPart finalPrompt];
            cr_responseModalities := [IMAGE; TEXT] |}]
    /\ Js.includes finalPrompt
         "Use the first provided image as the main background. Critically, you must remove any people from this image, using only the scenery as the background for the final composition."
       = true.
Proof.
  destruct (upload_background_then_submit sample_ai sample_page false
              "image/png" "QUJD" "" "P" "1:1")
    as (p' & background & finalPrompt & Hrun & Hreq & _ & _ & Hinc);
    try reflexivity.
  - repeat constructor; vm_compute; eauto.
  - exists finalPrompt.
    change (handleFileChange_onload "bg" "data:image/png;base64,QUJD" sample_page)
      with (handleFileChange_onload "bg"
              ("data:" +:+ "image/png" +:+ ";base64," +:+ "QUJD") sample_page).
    rewrite Hrun. cbn [snd]. split; [exact Hreq | exact Hinc].
Defined.
